(** * The txscript execution engine (cos/txscript/engine.go)

    A shallow embedding of the script virtual machine: the engine record,
    its three stacks, the opcode gate [executeOpcode], the step loop, the
    completion check, the hash-type gate, stack introspection and the
    reusable-engine life cycle ([Prepare], [NewReusableEngine], [NewEngine]).

    Go methods on [*Engine] mutate the receiver and return an [error]; they
    are embedded as functions from the engine before the call to an
    [outcome]: the returned value together with the engine after the call,
    or a run-time panic. *)

From Stdlib Require Import ZArith Bool Lia.
From Stdlib.Strings Require Byte.
From Stdlib.Strings Require String Ascii.
From stdpp Require Import base option list.

Local Open Scope Z_scope.

(** ** Bytes, errors and outcomes *)

Abbreviation byte := Byte.byte.
Abbreviation bytes := (list Byte.byte).

(** The error values the engine returns.  [ErrInvalidHashType] stands for
    the formatted error of [checkHashTypeEncoding], which carries the
    offending hash type; [ErrExternal] stands for errors that originate in
    the parser or in an opcode handler. *)
Inductive error : Type :=
  | ErrStackOpDisabled
  | ErrStackReservedOpcode
  | ErrStackTooManyOperations
  | ErrStackElementTooBig
  | ErrStackScriptUnfinished
  | ErrStackEmptyStack
  | ErrStackScriptFailed
  | ErrStackOverflow
  | ErrStackUnderflow
  | ErrStackInvalidArgs
  | ErrInvalidIndex
  | ErrStackLongScript
  | ErrInvalidHashType (hashType : Z)
  | ErrExternal (code : Z).

(** Run-time panics of the Go program. *)
Inductive panic : Type :=
  | IndexOutOfRange
  | NilDereference.

(** ** The data model *)

(** [opcode.value] and [parsedOpcode.data].  The handler field
    [opcode.opfunc] is a function of the parsed opcode and the engine; it
    is kept outside the record (see [Externals]) because its type mentions
    the engine, which in turn holds parsed opcodes. *)
Record opcode : Type := mkOpcode { value : Z }.
Record parsedOpcode : Type := mkParsed { pop_opcode : opcode; data : bytes }.

(** Modelled from the spec: the execution frame (its declaration is not in
    engine.go): the parsed instruction sequence, a program counter, and the
    frame's own stack of branch tags. *)
Record stackFrame : Type := mkFrame {
  script : list parsedOpcode;
  pc : Z;
  condStack : list Z
}.

(** Modelled from the spec: the execution stack, an ordered sequence of
    frames whose last element is the topmost frame ([DisasmScript] walks
    [frames] from the last index down, innermost first). *)
Record scriptStack : Type := mkScriptStack { frames : list stackFrame }.

(** Modelled from the spec: a byte-array value stack (its declaration is
    not in engine.go).  [stk] is ordered bottom to top, as a Go slice grown
    by [append]. *)
Record stack : Type := mkStack { stk : list bytes }.

(** Modelled from the spec: the parts of the transaction and block
    structures (package bc) that the engine reads: the witness arguments of
    each input, the amount of each output, and the signature script of a
    block. *)
Record TxInput : Type := mkTxInput { InputWitness : list bytes }.
Record TxOutput : Type := mkTxOutput { Amount : Z }.
Record TxData : Type := mkTxData { Inputs : list TxInput; Outputs : list TxOutput }.
Record Block : Type := mkBlock { SignatureScript : bytes }.
Inductive SigHasher : Type := NewSigHasher (t : TxData).

Record Engine : Type := mkEngine {
  scriptVersion : bytes;
  scriptVersionVal : Z;
  estack : scriptStack;
  dstack : stack;
  astack : stack;
  tx : option TxData;
  block : option Block;
  sigHasher : option SigHasher;
  txIdx : Z;
  numOps : Z;
  flags : Z;
  available : list Z
}.

(** Field assignments [vm.f = x]. *)
Definition set_scriptVersion (x : bytes) (vm : Engine) : Engine :=
  mkEngine x (scriptVersionVal vm) (estack vm) (dstack vm) (astack vm) (tx vm)
           (block vm) (sigHasher vm) (txIdx vm) (numOps vm) (flags vm) (available vm).
Definition set_scriptVersionVal (x : Z) (vm : Engine) : Engine :=
  mkEngine (scriptVersion vm) x (estack vm) (dstack vm) (astack vm) (tx vm)
           (block vm) (sigHasher vm) (txIdx vm) (numOps vm) (flags vm) (available vm).
Definition set_estack (x : scriptStack) (vm : Engine) : Engine :=
  mkEngine (scriptVersion vm) (scriptVersionVal vm) x (dstack vm) (astack vm) (tx vm)
           (block vm) (sigHasher vm) (txIdx vm) (numOps vm) (flags vm) (available vm).
Definition set_dstack (x : stack) (vm : Engine) : Engine :=
  mkEngine (scriptVersion vm) (scriptVersionVal vm) (estack vm) x (astack vm) (tx vm)
           (block vm) (sigHasher vm) (txIdx vm) (numOps vm) (flags vm) (available vm).
Definition set_astack (x : stack) (vm : Engine) : Engine :=
  mkEngine (scriptVersion vm) (scriptVersionVal vm) (estack vm) (dstack vm) x (tx vm)
           (block vm) (sigHasher vm) (txIdx vm) (numOps vm) (flags vm) (available vm).
Definition set_sigHasher (x : option SigHasher) (vm : Engine) : Engine :=
  mkEngine (scriptVersion vm) (scriptVersionVal vm) (estack vm) (dstack vm) (astack vm) (tx vm)
           (block vm) x (txIdx vm) (numOps vm) (flags vm) (available vm).
Definition set_txIdx (x : Z) (vm : Engine) : Engine :=
  mkEngine (scriptVersion vm) (scriptVersionVal vm) (estack vm) (dstack vm) (astack vm) (tx vm)
           (block vm) (sigHasher vm) x (numOps vm) (flags vm) (available vm).
Definition set_numOps (x : Z) (vm : Engine) : Engine :=
  mkEngine (scriptVersion vm) (scriptVersionVal vm) (estack vm) (dstack vm) (astack vm) (tx vm)
           (block vm) (sigHasher vm) (txIdx vm) x (flags vm) (available vm).
Definition set_available (x : list Z) (vm : Engine) : Engine :=
  mkEngine (scriptVersion vm) (scriptVersionVal vm) (estack vm) (dstack vm) (astack vm) (tx vm)
           (block vm) (sigHasher vm) (txIdx vm) (numOps vm) (flags vm) x.

(** The result of running a method on an engine: it returns [a] and leaves
    the engine in state [vm], or it panics. *)
Inductive outcome (A : Type) : Type :=
  | Returns (a : A) (vm : Engine)
  | Panics (p : panic).
Arguments Returns {A} a vm.
Arguments Panics {A} p.

(** A method is a function of the engine it is called on. *)
Definition M (A : Type) : Type := Engine -> outcome A.

Definition ret {A} (a : A) : M A := fun vm => Returns a vm.
Definition bind {A B} (m : M A) (k : A -> M B) : M B :=
  fun vm => match m vm with
            | Returns a vm' => k a vm'
            | Panics p => Panics p
            end.
Definition get : M Engine := fun vm => Returns vm vm.
Definition modify (f : Engine -> Engine) : M unit := fun vm => Returns tt (f vm).
Definition throw {A} (p : panic) : M A := fun _ => Panics p.

Declare Scope go_scope.
Delimit Scope go_scope with go.
Notation "x <- m ;; k" := (bind m (fun x => k))
  (at level 100, m at next level, right associativity) : go_scope.
Notation "m ;;; k" := (bind m (fun _ => k))
  (at level 100, right associativity) : go_scope.

(** Go's [int] and [int64]: 64-bit two's complement. *)
Definition wrap64 (z : Z) : Z := (z + 2 ^ 63) mod 2 ^ 64 - 2 ^ 63.

(** ** ScriptFlags: [1 << iota] *)

Definition ScriptStrictMultiSig : Z := Z.shiftl 1 0.
Definition ScriptDiscourageUpgradableNops : Z := Z.shiftl 1 1.
Definition ScriptVerifyDERSignatures : Z := Z.shiftl 1 2.
Definition ScriptVerifyLowS : Z := Z.shiftl 1 3.
Definition ScriptVerifySigPushOnly : Z := Z.shiftl 1 4.
Definition ScriptVerifyStrictEncoding : Z := Z.shiftl 1 5.

Definition maxExecutionStackSize : Z := 10.

(** ** The value stack

    The methods of the byte-array stack are declared outside engine.go.
    Slices in memory are far shorter than 2^31 elements, so the conversion
    of a length to the 32-bit depth is exact. *)

Module Stack.

(** Modelled from the spec: the number of elements on the stack (its
    declaration is not in engine.go). *)
Definition Depth (s : stack) : Z := Z.of_nat (length (stk s)).

(** Modelled from the spec: pushing a byte array puts it on top (its
    declaration is not in engine.go). *)
Definition PushByteArray (so : bytes) (s : stack) : stack :=
  mkStack (stk s ++ [so]).

(** Modelled from the spec: [PeekByteArray idx] reads the element [idx]
    positions below the top without removing it, and fails outside the
    stack (its declaration is not in engine.go). *)
Definition PeekByteArray (idx : Z) (s : stack) : bytes * option error :=
  let sz := Depth s in
  if (idx <? 0) || (idx >=? sz) then ([], Some ErrStackUnderflow)
  else match stk s !! Z.to_nat (sz - idx - 1) with
       | Some so => (so, None)
       | None => ([], Some ErrStackUnderflow)
       end.

(** Modelled from the spec: popping removes and returns the top element,
    and fails on an empty stack (its declaration is not in engine.go). *)
Definition PopByteArray (s : stack) : bytes * option error * stack :=
  match last (stk s) with
  | Some so => (so, None, mkStack (removelast (stk s)))
  | None => ([], Some ErrStackUnderflow, s)
  end.

(** The loop of [DropN]: pop [n] times, stopping at the first error. *)
Fixpoint popN (n : nat) (s : stack) : option error * stack :=
  match n with
  | O => (None, s)
  | S k => match PopByteArray s with
           | (_, None, s') => popN k s'
           | (_, Some e, s') => (Some e, s')
           end
  end.

(** Modelled from the spec: [DropN n] removes the top [n] elements (its
    declaration is not in engine.go).  A count below one is rejected as an
    invalid argument, the only kind of error the comment in [setStack]
    allows for, and leaves the stack as it is. *)
Definition DropN (n : Z) (s : stack) : option error * stack :=
  if n <? 1 then (Some ErrStackInvalidArgs, s) else popN (Z.to_nat n) s.

(** Modelled from the spec: resetting empties the stack (its declaration is
    not in engine.go). *)
Definition Reset (s : stack) : stack := mkStack [].

End Stack.

(** ** The execution stack *)

Module ScriptStack.

(** Modelled from the spec: the topmost frame, the one being stepped, if
    any (its declaration is not in engine.go). *)
Definition Peek (s : scriptStack) : option stackFrame := last (frames s).

(** Modelled from the spec: pushing a frame puts it atop the execution
    stack (its declaration is not in engine.go). *)
Definition Push (f : stackFrame) (s : scriptStack) : scriptStack :=
  mkScriptStack (frames s ++ [f]).

(** Modelled from the spec: resetting drops every frame (its declaration is
    not in engine.go). *)
Definition Reset (s : scriptStack) : scriptStack := mkScriptStack [].

(** Modelled from the spec: whether the execution stack is fully drained
    (its declaration is not in engine.go). *)
Definition empty (s : scriptStack) : bool :=
  match frames s with [] => true | _ => false end.

(** Modelled from the spec: the number of frames (its declaration is not in
    engine.go). *)
Definition Depth (s : scriptStack) : Z := Z.of_nat (length (frames s)).

End ScriptStack.

(** ** External collaborators

    The parser, the opcode table with its handlers, the number decoding and
    the resource ceilings live in other files of the package.  The engine
    is embedded over them: every definition and theorem below holds for any
    choice of these constants and functions. *)
Class Externals : Type := {
  (* opcode numbering and resource ceilings *)
  OP_16 : Z;
  maxOpsPerScript : Z;
  MaxScriptElementSize : Z;
  maxStackSize : Z;
  MaxProgramByteLength : Z;
  (* branch tags that denote an executing branch *)
  OpCondIfTrue : Z;
  OpCondWhileTrue : Z;
  (* bc.SigHashType constants *)
  SigHashAll : Z;
  SigHashSingle : Z;
  SigHashAnyOneCanPay : Z;
  (* methods of parsedOpcode *)
  isDisabled : parsedOpcode -> Z -> bool -> bool;
  alwaysIllegal : parsedOpcode -> bool;
  isConditional : parsedOpcode -> bool;
  (* decoding and parsing *)
  asBool : bytes -> bool;
  parseScript : bytes -> list parsedOpcode * option error;
  parseScriptVersion : list parsedOpcode -> bytes;
  makeScriptNum : bytes -> bool -> Z * option error;
  PushedData : bytes -> list bytes * option error
}.

(** The handler stored in the [opfunc] field of an opcode: a function of
    the parsed opcode and the engine, found from the opcode. *)
Definition handler : Type := opcode -> parsedOpcode -> M (option error).

(** A handler that returns nil and leaves the engine alone. *)
Definition idle : handler := fun _ _ vm => Returns None vm.

(** Go's [len] as an integer. *)
Definition len {A} (l : list A) : Z := Z.of_nat (length l).

(** Modelled from the spec: the frame methods used by [Step] (declared
    outside engine.go): fetch the opcode at an offset, advance the program
    counter by one, and test whether no opcode remains. *)
Definition frame_opcode (f : stackFrame) (off : Z) : option parsedOpcode :=
  if (off <? 0) || (off >=? len (script f)) then None
  else script f !! Z.to_nat off.
Definition frame_step (f : stackFrame) : stackFrame :=
  mkFrame (script f) (pc f + 1) (condStack f).
Definition frame_done (f : stackFrame) : bool := pc f >=? len (script f).

(** Modelled from the spec: [curPC] reports the current frame and its
    program counter, and fails only when the frame stack is empty. *)
Definition curPC (s : scriptStack) : option stackFrame * Z * option error :=
  match ScriptStack.Peek s with
  | Some f => (Some f, pc f, None)
  | None => (None, 0, Some ErrStackScriptUnfinished)
  end.

(** Modelled from the spec: [nextFrame] pops frames off the top until one
    with remaining work is found (not done) or the stack is empty (done). *)
Fixpoint dropFinished (top_first : list stackFrame) : list stackFrame :=
  match top_first with
  | [] => []
  | f :: below => if frame_done f then dropFinished below else top_first
  end.
Definition nextFrame (s : scriptStack) : bool * option error * scriptStack :=
  let s' := mkScriptStack (rev (dropFinished (rev (frames s)))) in
  (ScriptStack.empty s', None, s').

Section Engine.

Context `{X : Externals}.
Variable opfunc : handler.

Definition isKnownVersion (version : Z) : bool :=
  (version >=? 0) && (version <=? 2).

Definition currentVersion (vm : Engine) : Z := scriptVersionVal vm.

(** [vm.tx.Inputs[vm.txIdx]]. *)
Definition currentTxInput : M TxInput := fun vm =>
  match tx vm with
  | None => Panics NilDereference
  | Some t =>
      if (txIdx vm <? 0) || (txIdx vm >=? len (Inputs t)) then Panics IndexOutOfRange
      else match Inputs t !! Z.to_nat (txIdx vm) with
           | Some i => Returns i vm
           | None => Panics IndexOutOfRange
           end
  end.

Definition hasFlag (vm : Engine) (flag : Z) : bool :=
  Z.land (flags vm) flag =? flag.

(** The engine after [vm.numOps++]. *)
Definition counted (vm : Engine) : Engine := set_numOps (wrap64 (numOps vm + 1)) vm.

(** The first test of [executeOpcode], on the cached version and on whether
    the engine validates a block. *)
Definition disabled_here (pop : parsedOpcode) (vm : Engine) : bool :=
  isDisabled pop (currentVersion vm) (bool_decide (block vm <> None)).

(** The frame on top of the execution stack is dereferenced without a
    check: with no frame the program panics. *)
Definition isBranchExecuting : M bool := fun vm =>
  match ScriptStack.Peek (estack vm) with
  | None => Panics NilDereference
  | Some f =>
      let s := condStack f in
      if len s =? 0 then Returns true vm
      else match s !! (length s - 1)%nat with
           | Some v => Returns ((v =? OpCondIfTrue) || (v =? OpCondWhileTrue)) vm
           | None => Panics IndexOutOfRange
           end
  end.

(** The early returns of the cost-accounting statement are carried by
    [err]: the function goes on to the branch gate only when it is nil. *)
Definition executeOpcode (pop : parsedOpcode) : M (option error) :=
  (vm <- get ;;
   if isDisabled pop (currentVersion vm) (bool_decide (block vm <> None)) then
     ret (Some ErrStackOpDisabled)
   else if alwaysIllegal pop then
     ret (Some ErrStackReservedOpcode)
   else
     err <- (if value (pop_opcode pop) >? OP_16 then
               (modify (fun vm => set_numOps (wrap64 (numOps vm + 1)) vm) ;;;
                vm <- get ;;
                if numOps vm >? maxOpsPerScript
                then ret (Some ErrStackTooManyOperations)
                else ret None)
             else if len (data pop) >? MaxScriptElementSize then
               ret (Some ErrStackElementTooBig)
             else ret None) ;;
     match err with
     | Some e => ret (Some e)
     | None =>
         executing <- isBranchExecuting ;;
         if negb executing && negb (isConditional pop) then ret None
         else opfunc (pop_opcode pop) pop
     end)%go.

(** The closing statements of [executeOpcode], from the branch test on:
    skip the opcode in a branch that is not executing unless it is a
    conditional, run its handler otherwise. *)
Definition branchGate (pop : parsedOpcode) : M (option error) :=
  (executing <- isBranchExecuting ;;
   if negb executing && negb (isConditional pop) then ret None
   else opfunc (pop_opcode pop) pop)%go.

(** Modelled from the spec: [PopBool] pops the top element and interprets
    it as a boolean (its declaration is not in engine.go). *)
Definition PopBool (s : stack) : bool * option error * stack :=
  match Stack.PopByteArray s with
  | (so, None, s') => (asBool so, None, s')
  | (_, Some e, s') => (false, Some e, s')
  end.

(** The trace output of the failing branch has no effect on the engine and
    is left out. *)
Definition CheckErrorCondition (finalScript : bool) : M (option error) :=
  (vm <- get ;;
   if negb (ScriptStack.empty (estack vm)) then ret (Some ErrStackScriptUnfinished)
   else if Stack.Depth (dstack vm) <? 1 then ret (Some ErrStackEmptyStack)
   else
     let '(v, err, d) := PopBool (dstack vm) in
     modify (set_dstack d) ;;;
     match err with
     | Some e => ret (Some e)
     | None => if negb v then ret (Some ErrStackScriptFailed) else ret None
     end)%go.

Definition PushScript (newScript : list parsedOpcode) : M unit :=
  modify (fun vm => set_estack (ScriptStack.Push (mkFrame newScript 0 []) (estack vm)) vm).

(** [Step] keeps a pointer to the frame that was on top before the opcode
    ran and advances that frame afterwards, wherever it now sits: handlers
    push frames above it (PushScript), so it is the frame at the same
    position [i] of the execution stack; a frame no longer on the stack is
    advanced on its own. *)
Definition Step : M (bool * option error) :=
  (vm <- get ;;
   let '(_, off, err) := curPC (estack vm) in
   match err with
   | Some e => ret (true, Some e)
   | None =>
       match ScriptStack.Peek (estack vm) with
       | None => throw NilDereference
       | Some frame =>
           let i := (length (frames (estack vm)) - 1)%nat in
           match frame_opcode frame off with
           | None => throw IndexOutOfRange
           | Some opcode =>
               err <- executeOpcode opcode ;;
               match err with
               | Some e => ret (true, Some e)
               | None =>
                   vm <- get ;;
                   if Stack.Depth (dstack vm) + Stack.Depth (astack vm) >? maxStackSize then
                     ret (false, Some ErrStackOverflow)
                   else if ScriptStack.Depth (estack vm) >? maxExecutionStackSize then
                     ret (false, Some ErrStackOverflow)
                   else
                     let live := default frame (frames (estack vm) !! i) in
                     modify (fun vm => set_estack
                               (mkScriptStack (<[i := frame_step live]> (frames (estack vm)))) vm) ;;;
                     if frame_done (frame_step live) then
                       vm <- get ;;
                       let '(done, err, s) := nextFrame (estack vm) in
                       modify (set_estack s) ;;;
                       ret (done, err)
                     else ret (false, None)
               end
           end
       end
   end)%go.

(** The loop of [Execute], bounded by a step budget: [None] when the budget
    runs out before the loop ends.  The trace output is left out. *)
Fixpoint stepLoop (fuel : nat) (vm : Engine) : option (outcome (option error)) :=
  match fuel with
  | O => None
  | S fuel' =>
      match Step vm with
      | Returns (_, Some e) vm' => Some (Returns (Some e) vm')
      | Returns (true, None) vm' => Some (Returns None vm')
      | Returns (false, None) vm' => stepLoop fuel' vm'
      | Panics p => Some (Panics p)
      end
  end.

Definition Execute (fuel : nat) (vm : Engine) : option (outcome (option error)) :=
  if negb (isKnownVersion (scriptVersionVal vm)) then Some (Returns None vm)
  else match stepLoop fuel vm with
       | Some (Returns None vm') => Some (CheckErrorCondition true vm')
       | r => r
       end.

(** [hashType & ^bc.SigHashAnyOneCanPay]: on a non-negative [hashType] the
    bits of the mask are cleared whatever the width of the type. *)
Definition checkHashTypeEncoding (vm : Engine) (hashType : Z) : option error :=
  if negb (hasFlag vm ScriptVerifyStrictEncoding) then None
  else
    let sigHashType := Z.land hashType (Z.lnot SigHashAnyOneCanPay) in
    if (sigHashType <? SigHashAll) || (sigHashType >? SigHashSingle)
    then Some (ErrInvalidHashType hashType)
    else None.

(** [getStack] allocates an array of [Depth] empty slots and fills slot
    [len(array)-i-1] with the element [i] below the top; the error of
    [PeekByteArray] is discarded. *)
Definition getStack (s : stack) : list bytes :=
  let array := replicate (Z.to_nat (Stack.Depth s)) ([] : bytes) in
  foldl (fun (array : list bytes) (i : nat) =>
           <[(length array - i - 1)%nat := fst (Stack.PeekByteArray (Z.of_nat i) s)]> array)
        array (seq 0 (length array)).

(** [setStack] drops [Depth] elements, discarding the error of [DropN], and
    pushes the elements of [data] in order. *)
Definition setStack (s : stack) (data : list bytes) : stack :=
  let s := snd (Stack.DropN (Stack.Depth s) s) in
  foldl (fun s d => Stack.PushByteArray d s) s data.

Definition GetStack (vm : Engine) : list bytes := getStack (dstack vm).
Definition SetStack (data : list bytes) (vm : Engine) : Engine :=
  set_dstack (setStack (dstack vm) data) vm.
Definition GetAltStack (vm : Engine) : list bytes := getStack (astack vm).
Definition SetAltStack (data : list bytes) (vm : Engine) : Engine :=
  set_astack (setStack (astack vm) data) vm.

Definition Prepare (script : bytes) (args : list bytes) (txIdx : Z) : M (option error) :=
  (vm <- get ;;
   if (txIdx <? 0) ||
      match tx vm with Some t => txIdx >=? len (Inputs t) | None => false end
   then ret (Some ErrInvalidIndex)
   else
     modify (set_txIdx txIdx) ;;;
     modify (fun vm => set_dstack (Stack.Reset (dstack vm)) vm) ;;;
     modify (fun vm => set_estack (ScriptStack.Reset (estack vm)) vm) ;;;
     modify (fun vm => set_dstack
               (foldl (fun s arg => Stack.PushByteArray arg s) (dstack vm) args) vm) ;;;
     if len script >? MaxProgramByteLength then ret (Some ErrStackLongScript)
     else
       let '(parsedScript, err) := parseScript script in
       match err with
       | Some e => ret (Some e)
       | None =>
           modify (set_scriptVersion (parseScriptVersion parsedScript)) ;;;
           modify (fun vm => set_scriptVersionVal
                     (fst (makeScriptNum (scriptVersion vm) false)) vm) ;;;
           PushScript parsedScript ;;;
           modify (set_numOps 0) ;;;
           ret None
       end)%go.

(** The engine once [Prepare] has stored the input index, reset the data
    and execution stacks and pushed the arguments. *)
Definition loaded (args : list bytes) (txIdx' : Z) (vm : Engine) : Engine :=
  mkEngine (scriptVersion vm) (scriptVersionVal vm) (mkScriptStack []) (mkStack args)
           (astack vm) (tx vm) (block vm) (sigHasher vm) txIdx' (numOps vm) (flags vm)
           (available vm).

(** The index test of [Prepare]. *)
Definition invalidIndex (txIdx' : Z) (vm : Engine) : bool :=
  (txIdx' <? 0) ||
  match tx vm with Some t => txIdx' >=? len (Inputs t) | None => false end.

(** A constructor returns an engine pointer and an error, or panics. *)
Inductive constructed : Type :=
  | Built (vm : option Engine) (err : option error)
  | BuildPanics (p : panic).

Definition newReusableEngine (tx' : option TxData) (block' : option Block) (flags' : Z)
  : option Engine * option error :=
  let vm := mkEngine [] 0 (mkScriptStack []) (mkStack []) (mkStack [])
                     tx' block' None 0 0 flags' [] in
  let vm := match tx' with
            | Some t => set_sigHasher (Some (NewSigHasher t)) vm
            | None => vm
            end in
  let vm := match tx vm, tx' with
            | Some _, Some t =>
                let available := replicate (length (Outputs t)) 0 in
                set_available
                  (foldl (fun (available : list Z) '(i, output) => <[i := Amount output]> available)
                         available (imap (fun i o => (i, o)) (Outputs t)))
                  vm
            | _, _ => vm
            end in
  (Some vm, None).

Definition NewReusableEngine (tx : option TxData) (flags : Z) : option Engine * option error :=
  newReusableEngine tx None flags.

(** The argument [tx.Inputs[txIdx].InputWitness] is evaluated before
    [Prepare] is entered. *)
Definition NewEngine (scriptPubKey : bytes) (tx : option TxData) (txIdx : Z) (flags : Z)
  : constructed :=
  match NewReusableEngine tx flags with
  | (_, Some e) => Built None (Some e)
  | (None, None) => BuildPanics NilDereference
  | (Some vm, None) =>
      match tx with
      | None => BuildPanics NilDereference
      | Some t =>
          if (txIdx <? 0) || (txIdx >=? len (Inputs t)) then BuildPanics IndexOutOfRange
          else match Inputs t !! Z.to_nat txIdx with
               | None => BuildPanics IndexOutOfRange
               | Some input =>
                   match Prepare scriptPubKey (InputWitness input) txIdx vm with
                   | Returns err vm' => Built (Some vm') err
                   | Panics p => BuildPanics p
                   end
               end
      end
  end.

Definition NewEngineForBlock (scriptPubKey : bytes) (block : option Block) (flags : Z)
  : constructed :=
  match newReusableEngine None block flags with
  | (_, Some e) => Built None (Some e)
  | (None, None) => BuildPanics NilDereference
  | (Some vm, None) =>
      match block with
      | None => BuildPanics NilDereference
      | Some b =>
          let '(pushed, err) := PushedData (SignatureScript b) in
          match err with
          | Some e => Built None (Some e)
          | None =>
              match Prepare scriptPubKey pushed 0 vm with
              | Returns err vm' => Built (Some vm') err
              | Panics p => BuildPanics p
              end
          end
      end
  end.

End Engine.

(** ** A reference instantiation of the collaborators

    Concrete scripts are run against a small opcode table in the btcsuite
    numbering from which this engine derives. *)
Module Reference.

Definition OP_DATA_75 : Z := 0x4b.
Definition OP_1 : Z := 0x51.
Definition OP_NOP : Z := 0x61.
Definition OP_IF : Z := 0x63.
Definition OP_NOTIF : Z := 0x64.
Definition OP_VERIF : Z := 0x65.
Definition OP_VERNOTIF : Z := 0x66.
Definition OP_ELSE : Z := 0x67.
Definition OP_ENDIF : Z := 0x68.
Definition OP_DROP : Z := 0x75.
Definition OP_CAT : Z := 0x7e.

Definition OpCondFalse : Z := 0.
Definition OpCondTrue : Z := 1.
Definition OpCondSkip : Z := 2.
Definition OpCondWhile : Z := 3.

Definition byte_val (b : byte) : Z := Z.of_N (Byte.to_N b).
Definition val_byte (z : Z) : byte := default Byte.x00 (Byte.of_N (Z.to_N z)).

(** Modelled from the spec: interpreting a stack element as a boolean (the
    decoding is declared outside engine.go): true when some byte is
    non-zero, a lone sign bit in the last byte apart. *)
Fixpoint ref_asBool (t : bytes) : bool :=
  match t with
  | [] => false
  | b :: rest =>
      if byte_val b =? 0 then ref_asBool rest
      else match rest with
           | [] => negb (byte_val b =? 0x80)
           | _ => true
           end
  end.

(** Modelled from the spec: the opcode parser [parse(bytes)] (declared
    outside engine.go), for direct pushes of 1 to 75 bytes and one-byte
    opcodes; a push that runs past the end of the script is a parse error. *)
Fixpoint ref_parse (fuel : nat) (b : bytes) : list parsedOpcode * option error :=
  match fuel, b with
  | S fuel', op :: rest =>
      let v := byte_val op in
      if (1 <=? v) && (v <=? OP_DATA_75) then
        if len rest <? v then ([], Some (ErrExternal 1))
        else let '(ps, e) := ref_parse fuel' (drop (Z.to_nat v) rest) in
             (mkParsed (mkOpcode v) (take (Z.to_nat v) rest) :: ps, e)
      else let '(ps, e) := ref_parse fuel' rest in
           (mkParsed (mkOpcode v) [] :: ps, e)
  | _, _ => ([], None)
  end.
Definition ref_parseScript (b : bytes) : list parsedOpcode * option error :=
  ref_parse (length b) b.

(** Modelled from the spec: [parseVersion] (declared outside engine.go):
    the pushed data of a leading [<version> OP_DROP] prefix, empty without
    one. *)
Definition ref_parseScriptVersion (s : list parsedOpcode) : bytes :=
  match s with
  | v :: d :: _ => if value (pop_opcode d) =? OP_DROP then data v else []
  | _ => []
  end.

(** Modelled from the spec: decoding a version number (declared outside
    engine.go), for numbers of at most one byte. *)
Definition ref_makeScriptNum (v : bytes) (requireMinimal : bool) : Z * option error :=
  match v with
  | [] => (0, None)
  | [b] => (if byte_val b <? 0x80 then byte_val b else - (byte_val b - 0x80), None)
  | _ => (0, Some (ErrExternal 2))
  end.

(** Modelled from the spec: the pushed data of a signature script
    (declared outside engine.go): the data of its push opcodes, in order. *)
Definition ref_PushedData (b : bytes) : list bytes * option error :=
  let '(ps, e) := ref_parseScript b in
  (data <$> filter (fun p => value (pop_opcode p) <= OP_DATA_75) ps, e).

(** Modelled from the spec: the static metadata of the opcode table
    (declared outside engine.go): which opcodes are disabled, which are
    always illegal, and which are branch-control opcodes. *)
Definition ref_isDisabled (pop : parsedOpcode) (version : Z) (isBlock : bool) : bool :=
  value (pop_opcode pop) =? OP_CAT.
Definition ref_alwaysIllegal (pop : parsedOpcode) : bool :=
  (value (pop_opcode pop) =? OP_VERIF) || (value (pop_opcode pop) =? OP_VERNOTIF).
Definition ref_isConditional (pop : parsedOpcode) : bool :=
  let v := value (pop_opcode pop) in
  (v =? OP_IF) || (v =? OP_NOTIF) || (v =? OP_ELSE) || (v =? OP_ENDIF).

(** Handlers work on the condition stack of the top frame. *)
Definition top_cond (vm : Engine) : list Z :=
  match ScriptStack.Peek (estack vm) with Some f => condStack f | None => [] end.
Definition set_top_cond (c : list Z) (vm : Engine) : Engine :=
  let fs := frames (estack vm) in
  set_estack (mkScriptStack
    (alter (fun f => mkFrame (script f) (pc f) c) (length fs - 1)%nat fs)) vm.
Definition push_data (d : bytes) (vm : Engine) : Engine :=
  set_dstack (Stack.PushByteArray d (dstack vm)) vm.

Definition opcodeIf (negate : bool) : M (option error) := fun vm =>
  let c := top_cond vm in
  let executing := match last c with
                   | None => true
                   | Some v => (v =? OpCondTrue) || (v =? OpCondWhile)
                   end in
  if executing then
    match Stack.PopByteArray (dstack vm) with
    | (so, None, d) =>
        let tag := if xorb negate (ref_asBool so) then OpCondTrue else OpCondFalse in
        Returns None (set_top_cond (c ++ [tag]) (set_dstack d vm))
    | (_, Some e, _) => Returns (Some e) vm
    end
  else Returns None (set_top_cond (c ++ [OpCondSkip]) vm).

Definition opcodeElse : M (option error) := fun vm =>
  let c := top_cond vm in
  match last c with
  | None => Returns (Some (ErrExternal 3)) vm
  | Some v =>
      let v' := if v =? OpCondTrue then OpCondFalse
                else if v =? OpCondFalse then OpCondTrue else v in
      Returns None (set_top_cond (removelast c ++ [v']) vm)
  end.

Definition opcodeEndif : M (option error) := fun vm =>
  let c := top_cond vm in
  match last c with
  | None => Returns (Some (ErrExternal 3)) vm
  | Some _ => Returns None (set_top_cond (removelast c) vm)
  end.

(** Modelled from the spec: the opcode dispatcher (declared outside
    engine.go), for pushes, small integers and the branch-control opcodes;
    every other opcode does nothing. *)
Definition ref_opfunc (o : opcode) (pop : parsedOpcode) : M (option error) := fun vm =>
  let v := value o in
  if v <=? OP_DATA_75 then Returns None (push_data (data pop) vm)
  else if (OP_1 <=? v) && (v <=? 0x60) then Returns None (push_data [val_byte (v - 0x50)] vm)
  else if v =? OP_IF then opcodeIf false vm
  else if v =? OP_NOTIF then opcodeIf true vm
  else if v =? OP_ELSE then opcodeElse vm
  else if v =? OP_ENDIF then opcodeEndif vm
  else Returns None vm.

Definition externals : Externals := {|
  OP_16 := 0x60;
  maxOpsPerScript := 201;
  MaxScriptElementSize := 520;
  maxStackSize := 1000;
  MaxProgramByteLength := 10000;
  OpCondIfTrue := OpCondTrue;
  OpCondWhileTrue := OpCondWhile;
  SigHashAll := 0x1;
  SigHashSingle := 0x3;
  SigHashAnyOneCanPay := 0x80;
  isDisabled := ref_isDisabled;
  alwaysIllegal := ref_alwaysIllegal;
  isConditional := ref_isConditional;
  asBool := ref_asBool;
  parseScript := ref_parseScript;
  parseScriptVersion := ref_parseScriptVersion;
  makeScriptNum := ref_makeScriptNum;
  PushedData := ref_PushedData
|}.

(** A transaction with two inputs and two outputs, and an engine for it. *)
Definition tx2 : TxData :=
  mkTxData [mkTxInput [[Byte.x01]]; mkTxInput []] [mkTxOutput 50; mkTxOutput 70].

Definition engine2 : Engine :=
  default (mkEngine [] 0 (mkScriptStack []) (mkStack []) (mkStack []) None None None 0 0 0 [])
          (fst (NewReusableEngine (Some tx2) 0)).

Definition op (v : Z) : parsedOpcode := mkParsed (mkOpcode v) [].

(** A frame stopped inside the false side of an OP_IF, and an engine whose
    only frame it is. *)
Definition false_frame : stackFrame :=
  mkFrame [op OP_IF; op OP_CAT; op OP_ENDIF] 1 [OpCondFalse].
Definition in_false_branch (numOps' : Z) : Engine :=
  set_numOps numOps' (set_estack (mkScriptStack [false_frame]) engine2).

(** The engine of [tx2] with the strict-encoding flag. *)
Definition strict_engine : Engine :=
  default engine2 (fst (NewReusableEngine (Some tx2) ScriptVerifyStrictEncoding)).

(** An engine prepared with a script whose version prefix is 7. *)
Definition engine_v7 : Engine :=
  match Prepare (X := externals)
          [val_byte 0x01; val_byte 0x07; val_byte OP_DROP; val_byte OP_1] [] 0 engine2 with
  | Returns _ vm => vm
  | Panics _ => engine2
  end.

(** An engine whose script has run to its end, leaving one element. *)
Definition finished (top : bytes) : Engine := set_dstack (mkStack [top]) engine2.

(** Input 0 was validated and 20 units of output 0 were reserved; the
    engine is then prepared for input 1. *)
Definition reserved : Engine := set_available [30; 70] engine2.
Definition prepared_again : Engine :=
  match Prepare (X := externals) [val_byte OP_1] [[Byte.x07]] 1 reserved with
  | Returns _ vm => vm
  | Panics _ => reserved
  end.

(** A script one byte over the reference length limit. *)
Definition long_script : bytes := replicate (Z.to_nat 10001) Byte.x00.

End Reference.


(** * Properties *)

(** Unfolding the monadic plumbing of a method. *)
Ltac run := unfold bind, get, ret, modify, throw in *; simpl in *.

Section Properties.

Context `{X : Externals}.

Implicit Types (opfunc : handler) (pop : parsedOpcode) (vm : Engine).

Lemma isKnownVersion_range (v : Z) : isKnownVersion v = true <-> 0 <= v <= 2.
Proof. unfold isKnownVersion. rewrite andb_true_iff. lia. Qed.

Lemma isBranchExecuting_spec vm f :
  ScriptStack.Peek (estack vm) = Some f ->
  isBranchExecuting vm =
    Returns (match last (condStack f) with
             | None => true
             | Some v => (v =? OpCondIfTrue) || (v =? OpCondWhileTrue)
             end) vm.
Proof.
  intros Hf. unfold isBranchExecuting. rewrite Hf.
  destruct (condStack f) as [|t s] using rev_ind; [reflexivity|].
  rewrite last_snoc. unfold len. rewrite length_app. simpl.
  destruct (Z.eqb_spec (Z.of_nat (length s + 1)) 0) as [E|_]; [lia|].
  replace (length s + 1 - 1)%nat with (length s) by lia.
  rewrite list_lookup_middle by reflexivity. reflexivity.
Qed.

Lemma executeOpcode_disabled opfunc pop vm :
  disabled_here pop vm = true ->
  executeOpcode opfunc pop vm = Returns (Some ErrStackOpDisabled) vm.
Proof. unfold disabled_here, executeOpcode. run. intros ->. reflexivity. Qed.

Lemma executeOpcode_reserved opfunc pop vm :
  disabled_here pop vm = false -> alwaysIllegal pop = true ->
  executeOpcode opfunc pop vm = Returns (Some ErrStackReservedOpcode) vm.
Proof. unfold disabled_here, executeOpcode. run. intros -> ->. reflexivity. Qed.

(** What [executeOpcode] does with an opcode that passed the legality
    tests, by the four cases of the cost accounting. *)
Lemma executeOpcode_legal opfunc pop vm :
  disabled_here pop vm = false -> alwaysIllegal pop = false ->
  executeOpcode opfunc pop vm =
    if value (pop_opcode pop) >? OP_16 then
      if numOps (counted vm) >? maxOpsPerScript
      then Returns (Some ErrStackTooManyOperations) (counted vm)
      else branchGate opfunc pop (counted vm)
    else
      if len (data pop) >? MaxScriptElementSize
      then Returns (Some ErrStackElementTooBig) vm
      else branchGate opfunc pop vm.
Proof.
  unfold disabled_here, executeOpcode, branchGate. run. intros -> ->.
  destruct (value (pop_opcode pop) >? OP_16); simpl.
  - destruct (wrap64 (numOps vm + 1) >? maxOpsPerScript); reflexivity.
  - destruct (len (data pop) >? MaxScriptElementSize); reflexivity.
Qed.

Lemma branchGate_idle pop vm e vm' :
  branchGate idle pop vm <> Returns (Some e) vm'.
Proof.
  unfold branchGate, idle. run.
  destruct (isBranchExecuting vm) as [b w|]; [|discriminate].
  destruct (negb b && negb (isConditional pop)); discriminate.
Qed.

(** The counter does not wrap below the largest [int]. *)
Lemma numOps_counted vm :
  - 2 ^ 63 <= numOps vm < 2 ^ 63 - 1 -> numOps (counted vm) = numOps vm + 1.
Proof.
  intros H. unfold counted, wrap64. simpl.
  rewrite Z.mod_small by lia. lia.
Qed.

(** C1: a disabled opcode makes [executeOpcode] return the OpcodeDisabled
    error, and an always-illegal opcode (the disabled test, made first, not
    firing) the ReservedOpcode error, on every engine and with every handler:
    the state of the conditional branch is not consulted, so the error is
    returned inside a branch that is not executing too, and the engine is
    left as it was. *)
Theorem executeOpcode_illegal_in_any_branch opfunc pop vm :
  (disabled_here pop vm = true ->
   executeOpcode opfunc pop vm = Returns (Some ErrStackOpDisabled) vm) /\
  (disabled_here pop vm = false -> alwaysIllegal pop = true ->
   executeOpcode opfunc pop vm = Returns (Some ErrStackReservedOpcode) vm).
Proof.
  split.
  - apply executeOpcode_disabled.
  - apply executeOpcode_reserved.
Qed.

(** C2: when the cached script version is outside [0,2], [Execute] returns
    nil at once, for every step budget (none is needed) and every handler,
    and the engine is exactly as before: no step was taken, no handler ran
    and the completion check, which pops the data stack, did not run. *)
Theorem Execute_unknown_version opfunc (fuel : nat) vm :
  scriptVersionVal vm < 0 \/ 2 < scriptVersionVal vm ->
  Execute opfunc fuel vm = Some (Returns None vm).
Proof.
  intros Hv. unfold Execute.
  destruct (isKnownVersion (scriptVersionVal vm)) eqn:E; [|reflexivity].
  apply isKnownVersion_range in E. lia.
Qed.

(** C3: for an opcode that passed the legality tests, whatever the branch
    state.  An opcode above OP_16 is counted: if the incremented counter
    exceeds maxOpsPerScript the call fails with TooManyOperations on the
    engine with the counter incremented, otherwise the branch gate runs on
    that engine; and the call fails with TooManyOperations under every
    handler exactly when the incremented counter exceeds the limit.  Any
    other opcode is a push: the call fails with ElementTooBig if its data
    is longer than MaxScriptElementSize, otherwise the branch gate runs on
    the engine unchanged; and it fails with ElementTooBig under every
    handler exactly when the data is too long. *)
Theorem executeOpcode_cost_accounting pop vm :
  disabled_here pop vm = false -> alwaysIllegal pop = false ->
  (value (pop_opcode pop) > OP_16 ->
     (forall opfunc, numOps (counted vm) > maxOpsPerScript ->
        executeOpcode opfunc pop vm =
          Returns (Some ErrStackTooManyOperations) (counted vm)) /\
     (forall opfunc, numOps (counted vm) <= maxOpsPerScript ->
        executeOpcode opfunc pop vm = branchGate opfunc pop (counted vm)) /\
     ((forall opfunc, exists vm',
          executeOpcode opfunc pop vm = Returns (Some ErrStackTooManyOperations) vm')
      <-> numOps (counted vm) > maxOpsPerScript)) /\
  (value (pop_opcode pop) <= OP_16 ->
     (forall opfunc, len (data pop) > MaxScriptElementSize ->
        executeOpcode opfunc pop vm = Returns (Some ErrStackElementTooBig) vm) /\
     (forall opfunc, len (data pop) <= MaxScriptElementSize ->
        executeOpcode opfunc pop vm = branchGate opfunc pop vm) /\
     ((forall opfunc, exists vm',
          executeOpcode opfunc pop vm = Returns (Some ErrStackElementTooBig) vm')
      <-> len (data pop) > MaxScriptElementSize)).
Proof.
  intros Hd Hi.
  assert (E := fun opfunc => executeOpcode_legal opfunc pop vm Hd Hi).
  split; intros Hv.
  - assert (Hgt : (value (pop_opcode pop) >? OP_16) = true) by lia.
    rewrite Hgt in E.
    assert (Hover : forall opfunc, numOps (counted vm) > maxOpsPerScript ->
              executeOpcode opfunc pop vm =
                Returns (Some ErrStackTooManyOperations) (counted vm)).
    { intros opfunc H. rewrite E.
      replace (numOps (counted vm) >? maxOpsPerScript) with true by lia. reflexivity. }
    assert (Hin : forall opfunc, numOps (counted vm) <= maxOpsPerScript ->
              executeOpcode opfunc pop vm = branchGate opfunc pop (counted vm)).
    { intros opfunc H. rewrite E.
      replace (numOps (counted vm) >? maxOpsPerScript) with false by lia. reflexivity. }
    repeat split; try assumption.
    + intros Hall.
      destruct (Z_gt_le_dec (numOps (counted vm)) maxOpsPerScript) as [?|Hle]; [assumption|].
      destruct (Hall idle) as [vm' Hvm']. rewrite (Hin idle Hle) in Hvm'.
      exfalso. exact (branchGate_idle _ _ _ _ Hvm').
    + intros H opfunc. exists (counted vm). apply Hover, H.
  - assert (Hle : (value (pop_opcode pop) >? OP_16) = false) by lia.
    rewrite Hle in E.
    assert (Hover : forall opfunc, len (data pop) > MaxScriptElementSize ->
              executeOpcode opfunc pop vm = Returns (Some ErrStackElementTooBig) vm).
    { intros opfunc H. rewrite E.
      replace (len (data pop) >? MaxScriptElementSize) with true by lia. reflexivity. }
    assert (Hin : forall opfunc, len (data pop) <= MaxScriptElementSize ->
              executeOpcode opfunc pop vm = branchGate opfunc pop vm).
    { intros opfunc H. rewrite E.
      replace (len (data pop) >? MaxScriptElementSize) with false by lia. reflexivity. }
    repeat split; try assumption.
    + intros Hall.
      destruct (Z_gt_le_dec (len (data pop)) MaxScriptElementSize) as [?|Hsmall]; [assumption|].
      destruct (Hall idle) as [vm' Hvm']. rewrite (Hin idle Hsmall) in Hvm'.
      exfalso. exact (branchGate_idle _ _ _ _ Hvm').
    + intros H opfunc. exists vm. apply Hover, H.
Qed.

(** The branch gate inside a branch that is not executing. *)
Lemma branchGate_inactive opfunc pop vm f tag :
  ScriptStack.Peek (estack vm) = Some f ->
  last (condStack f) = Some tag ->
  tag <> OpCondIfTrue -> tag <> OpCondWhileTrue ->
  branchGate opfunc pop vm =
    if isConditional pop then opfunc (pop_opcode pop) pop vm else Returns None vm.
Proof.
  intros Hf Ht H1 H2. unfold branchGate. run.
  rewrite (isBranchExecuting_spec vm f Hf), Ht.
  replace (tag =? OpCondIfTrue) with false by lia.
  replace (tag =? OpCondWhileTrue) with false by lia.
  simpl. destruct (isConditional pop); reflexivity.
Qed.

(** C4: for an opcode that passes the legality and cost checks, met while
    the top frame's condition stack is non-empty with a top tag that is not
    an active one: if the opcode is not a conditional, [executeOpcode]
    returns nil whatever the handler is (the handler is not run: the engine
    is the one left by the cost accounting); if it is a conditional, the
    call is the call of its handler on that engine. *)
Theorem executeOpcode_skips_inactive_branch opfunc pop vm f tag :
  disabled_here pop vm = false -> alwaysIllegal pop = false ->
  (if value (pop_opcode pop) >? OP_16
   then numOps (counted vm) <= maxOpsPerScript
   else len (data pop) <= MaxScriptElementSize) ->
  ScriptStack.Peek (estack vm) = Some f ->
  last (condStack f) = Some tag ->
  tag <> OpCondIfTrue -> tag <> OpCondWhileTrue ->
  let charged := if value (pop_opcode pop) >? OP_16 then counted vm else vm in
  (isConditional pop = false ->
     executeOpcode opfunc pop vm = Returns None charged) /\
  (isConditional pop = true ->
     executeOpcode opfunc pop vm = opfunc (pop_opcode pop) pop charged).
Proof.
  intros Hd Hi Hcost Hf Ht H1 H2 charged.
  rewrite (executeOpcode_legal opfunc pop vm Hd Hi). subst charged.
  destruct (value (pop_opcode pop) >? OP_16).
  - replace (numOps (counted vm) >? maxOpsPerScript) with false by lia.
    rewrite (branchGate_inactive opfunc pop (counted vm) f tag Hf Ht H1 H2).
    split; intros ->; reflexivity.
  - replace (len (data pop) >? MaxScriptElementSize) with false by lia.
    rewrite (branchGate_inactive opfunc pop vm f tag Hf Ht H1 H2).
    split; intros ->; reflexivity.
Qed.

(** ** The value stack *)

Lemma PopByteArray_snoc (l : list bytes) (x : bytes) :
  Stack.PopByteArray (mkStack (l ++ [x])) = (x, None, mkStack l).
Proof.
  unfold Stack.PopByteArray. simpl.
  rewrite last_snoc, List.removelast_last. reflexivity.
Qed.

Lemma push_all (args : list bytes) (s : stack) :
  foldl (fun s arg => Stack.PushByteArray arg s) s args = mkStack (stk s ++ args).
Proof.
  revert s. induction args as [|a args IH]; intros [l]; simpl.
  - rewrite app_nil_r. reflexivity.
  - rewrite IH. simpl. rewrite <- app_assoc. reflexivity.
Qed.

(** C5: [CheckErrorCondition] returns ScriptUnfinished, leaving the engine
    alone, when the execution stack is not empty; otherwise EmptyStack when
    the data stack has depth zero; otherwise it pops the top element of the
    data stack and returns ScriptFailed when it decodes as false and nil
    when it decodes as true; and the result is the same for both values of
    the finalScript argument. *)
Theorem CheckErrorCondition_cases (finalScript : bool) vm :
  (ScriptStack.empty (estack vm) = false ->
     CheckErrorCondition finalScript vm = Returns (Some ErrStackScriptUnfinished) vm) /\
  (ScriptStack.empty (estack vm) = true -> Stack.Depth (dstack vm) = 0 ->
     CheckErrorCondition finalScript vm = Returns (Some ErrStackEmptyStack) vm) /\
  (forall below top,
     ScriptStack.empty (estack vm) = true -> stk (dstack vm) = below ++ [top] ->
     CheckErrorCondition finalScript vm =
       Returns (if asBool top then None else Some ErrStackScriptFailed)
               (set_dstack (mkStack below) vm)) /\
  (forall other : bool,
     CheckErrorCondition other vm = CheckErrorCondition finalScript vm).
Proof.
  repeat split.
  - intros He. unfold CheckErrorCondition. run. rewrite He. reflexivity.
  - intros He Hd. unfold CheckErrorCondition. run. rewrite He, Hd. reflexivity.
  - intros below top He Hd. unfold CheckErrorCondition. run. rewrite He. simpl.
    unfold Stack.Depth. rewrite Hd, length_app. simpl.
    destruct (Z.ltb_spec (Z.of_nat (length below + 1)) 1) as [E|_]; [lia|].
    unfold PopBool. destruct (dstack vm) as [l]. simpl in Hd. subst l.
    rewrite PopByteArray_snoc. destruct (asBool top); reflexivity.
Qed.

(** ** Prepare *)

(** [Prepare] by cases: the index test, the length test, the parser. *)
Lemma Prepare_cases (script : bytes) (args : list bytes) (txIdx' : Z) vm :
  Prepare script args txIdx' vm =
    if invalidIndex txIdx' vm then Returns (Some ErrInvalidIndex) vm
    else if len script >? MaxProgramByteLength then
      Returns (Some ErrStackLongScript) (loaded args txIdx' vm)
    else match parseScript script with
         | (_, Some e) => Returns (Some e) (loaded args txIdx' vm)
         | (parsed, None) =>
             Returns None
               (set_numOps 0
                  (set_estack (mkScriptStack [mkFrame parsed 0 []])
                     (set_scriptVersionVal
                        (fst (makeScriptNum (parseScriptVersion parsed) false))
                        (set_scriptVersion (parseScriptVersion parsed)
                           (loaded args txIdx' vm)))))
         end.
Proof.
  unfold Prepare, invalidIndex, PushScript. run.
  destruct (_ || _); [reflexivity|].
  rewrite push_all. simpl. fold (loaded args txIdx' vm).
  destruct (len script >? MaxProgramByteLength); [reflexivity|].
  destruct (parseScript script) as [parsed [e|]]; reflexivity.
Qed.

(** [Prepare] always returns: it has no panicking access. *)
Lemma Prepare_returns (script : bytes) (args : list bytes) (txIdx' : Z) vm :
  exists err vm', Prepare script args txIdx' vm = Returns err vm'.
Proof.
  rewrite Prepare_cases.
  destruct (invalidIndex txIdx' vm); [eauto|].
  destruct (len script >? MaxProgramByteLength); [eauto|].
  destruct (parseScript script) as [parsed [e|]]; eauto.
Qed.

(** C6: whatever [Prepare] returns, the table of available amounts of the
    engine is the one it had before the call, so an amount written while an
    earlier input was validated is still there; and after a successful call
    the data stack holds exactly the arguments, bottom to top, and the
    execution stack holds exactly one fresh frame for the parsed script:
    both were reset. *)
Theorem Prepare_keeps_available (script : bytes) (args : list bytes) (txIdx' : Z)
    vm (err : option error) vm' :
  Prepare script args txIdx' vm = Returns err vm' ->
  available vm' = available vm /\
  (err = None ->
     stk (dstack vm') = args /\
     exists parsed, parseScript script = (parsed, None) /\
                    frames (estack vm') = [mkFrame parsed 0 []]).
Proof.
  rewrite Prepare_cases.
  destruct (invalidIndex txIdx' vm).
  { intros [= <- <-]. split; [reflexivity|discriminate]. }
  destruct (len script >? MaxProgramByteLength).
  { intros [= <- <-]. split; [reflexivity|discriminate]. }
  destruct (parseScript script) as [parsed [e|]].
  { intros [= <- <-]. split; [reflexivity|discriminate]. }
  intros [= <- <-]. split; [reflexivity|]. intros _.
  split; [reflexivity|]. exists parsed. split; reflexivity.
Qed.

(** ** The hash-type gate *)

(** C7: without the strict-encoding flag [checkHashTypeEncoding] returns nil
    for every hash type; with it, the any-one-can-pay bits are cleared from
    the hash type, and the call fails with the invalid-hash-type error when
    the rest is below SigHashAll or above SigHashSingle and returns nil
    when it lies between them. *)
Theorem checkHashTypeEncoding_cases vm (hashType : Z) :
  let rest := Z.land hashType (Z.lnot SigHashAnyOneCanPay) in
  (hasFlag vm ScriptVerifyStrictEncoding = false ->
     checkHashTypeEncoding vm hashType = None) /\
  (hasFlag vm ScriptVerifyStrictEncoding = true ->
     (rest < SigHashAll \/ rest > SigHashSingle ->
        checkHashTypeEncoding vm hashType = Some (ErrInvalidHashType hashType)) /\
     (SigHashAll <= rest <= SigHashSingle ->
        checkHashTypeEncoding vm hashType = None) /\
     (checkHashTypeEncoding vm hashType <> None <->
        rest < SigHashAll \/ rest > SigHashSingle)).
Proof.
  intros rest. unfold checkHashTypeEncoding. fold rest. split.
  - intros ->. reflexivity.
  - intros ->. simpl.
    destruct ((rest <? SigHashAll) || (rest >? SigHashSingle)) eqn:E.
    + apply orb_true_iff in E.
      assert (Hout : rest < SigHashAll \/ rest > SigHashSingle) by lia.
      split; [reflexivity|]. split; [lia|]. split; [intros _; exact Hout|discriminate].
    + apply orb_false_iff in E.
      assert (Hin : SigHashAll <= rest <= SigHashSingle) by lia.
      split; [lia|]. split; [reflexivity|]. split; [congruence|lia].
Qed.

(** Clearing the mask leaves exactly the bits of the hash type outside it. *)
Lemma cleared_bits (hashType mask : Z) (n : Z) :
  0 <= n ->
  Z.testbit (Z.land hashType (Z.lnot mask)) n =
    Z.testbit hashType n && negb (Z.testbit mask n).
Proof.
  intros Hn. rewrite Z.land_spec, Z.lnot_spec by assumption. reflexivity.
Qed.

(** ** Stack introspection *)

Lemma popN_all (l : list bytes) :
  Stack.popN (length l) (mkStack l) = (None, mkStack []).
Proof.
  induction l as [|x l IH] using rev_ind; [reflexivity|].
  rewrite length_app, Nat.add_comm. simpl.
  rewrite PopByteArray_snoc. exact IH.
Qed.

(** [setStack] forgets the former contents. *)
Lemma setStack_stk (s : stack) (data : list bytes) : setStack s data = mkStack data.
Proof.
  unfold setStack. rewrite push_all. f_equal.
  destruct s as [l]. unfold Stack.DropN, Stack.Depth. simpl.
  destruct (Z.ltb_spec (Z.of_nat (length l)) 1) as [E|E]; simpl.
  - destruct l; [reflexivity|simpl in E; lia].
  - rewrite Nat2Z.id, popN_all. reflexivity.
Qed.

Lemma PeekByteArray_lookup (l : list bytes) (i : nat) (x : bytes) :
  (i < length l)%nat -> l !! (length l - i - 1)%nat = Some x ->
  Stack.PeekByteArray (Z.of_nat i) (mkStack l) = (x, None).
Proof.
  intros Hi Hx. unfold Stack.PeekByteArray, Stack.Depth. simpl.
  destruct (Z.ltb_spec (Z.of_nat i) 0) as [E|_]; [lia|].
  destruct (Z.geb_spec (Z.of_nat i) (Z.of_nat (length l))) as [E|_]; [lia|]. simpl.
  replace (Z.to_nat (Z.of_nat (length l) - Z.of_nat i - 1)) with (length l - i - 1)%nat by lia.
  rewrite Hx. reflexivity.
Qed.

(** After [k] rounds of the loop of [getStack] the top [k] slots of the
    array are filled. *)
Lemma getStack_loop (l : list bytes) (k : nat) :
  (k <= length l)%nat ->
  foldl (fun (array : list bytes) (i : nat) =>
           <[(length array - i - 1)%nat :=
               fst (Stack.PeekByteArray (Z.of_nat i) (mkStack l))]> array)
        (replicate (length l) []) (seq 0 k)
  = replicate (length l - k) [] ++ drop (length l - k) l.
Proof.
  induction k as [|k IH]; intros Hk.
  - simpl. rewrite Nat.sub_0_r, drop_all, app_nil_r. reflexivity.
  - rewrite seq_S, foldl_app, IH by lia. simpl.
    assert (Hlen : length (replicate (length l - k) ([] : bytes) ++ drop (length l - k) l)
                   = length l).
    { rewrite length_app, length_replicate, length_drop. lia. }
    rewrite Hlen.
    destruct (lookup_lt_is_Some_2 l (length l - k - 1)%nat) as [x Hx]; [lia|].
    rewrite (PeekByteArray_lookup l k x) by (assumption || lia). simpl.
    replace (length l - k)%nat with (S (length l - S k)) by lia.
    rewrite replicate_S_end, <- app_assoc. simpl.
    replace (length l - k - 1)%nat with (length l - S k)%nat in * by lia.
    rewrite insert_app_r_alt by (rewrite length_replicate; lia).
    rewrite length_replicate.
    replace (length l - S k - 0 - (length l - S k))%nat with 0%nat by lia. simpl.
    rewrite (drop_S l x (length l - S k)) by assumption. reflexivity.
Qed.

(** [getStack] reads the elements bottom to top. *)
Lemma getStack_stk (l : list bytes) : getStack (mkStack l) = l.
Proof.
  unfold getStack, Stack.Depth. simpl. rewrite Nat2Z.id, length_replicate.
  rewrite getStack_loop by lia. rewrite Nat.sub_diag. reflexivity.
Qed.

(** C8: for every sequence of byte arrays within the element-size limit and
    every engine, whatever its stacks hold, [GetStack] after [SetStack]
    returns the sequence itself, in the same bottom-to-top order, and so
    does [GetAltStack] after [SetAltStack]. *)
Theorem SetStack_GetStack (data : list bytes) vm :
  Forall (fun d => len d <= MaxScriptElementSize) data ->
  GetStack (SetStack data vm) = data /\
  GetAltStack (SetAltStack data vm) = data.
Proof.
  intros _. unfold GetStack, SetStack, GetAltStack, SetAltStack. simpl.
  rewrite !setStack_stk, !getStack_stk. split; reflexivity.
Qed.

(** ** Construction *)

Lemma seed_loop (outs : list TxOutput) : forall (n : nat) (acc : list Z),
  length acc = (n + length outs)%nat ->
  foldl (fun (available : list Z) '(i, output) => <[i := Amount output]> available)
        acc (imap (fun i o => ((n + i)%nat, o)) outs)
  = take n acc ++ (Amount <$> outs).
Proof.
  induction outs as [|o outs IH]; intros n acc Hlen; simpl in *.
  - rewrite take_ge by lia. rewrite app_nil_r. reflexivity.
  - rewrite (imap_ext _ (fun i o => ((S n + i)%nat, o))) by (intros; unfold compose; simpl; f_equal; lia).
    rewrite IH by (rewrite length_insert; lia).
    rewrite Nat.add_0_r.
    rewrite (take_S_r _ n (Amount o)) by (apply list_lookup_insert_eq; lia).
    rewrite take_insert_ge by lia. rewrite <- app_assoc. reflexivity.
Qed.

(** The table of available amounts is seeded with the amount of each output
    of the transaction, in order. *)
Lemma newReusableEngine_available (t : TxData) (block' : option Block) (flags' : Z) :
  exists vm, newReusableEngine (Some t) block' flags' = (Some vm, None) /\
             available vm = Amount <$> Outputs t.
Proof.
  eexists. split; [reflexivity|]. simpl.
  rewrite (seed_loop (Outputs t) 0) by (rewrite length_replicate; reflexivity).
  reflexivity.
Qed.

(** C9: for a transaction and an index outside [0, len(tx.Inputs)),
    [NewEngine] panics on the out-of-range access to [tx.Inputs[txIdx]],
    which it makes before [Prepare] is entered, whereas [Prepare] called
    with the same index on an engine for that transaction returns the
    InvalidIndex error and leaves the engine alone. *)
Theorem NewEngine_index_unchecked (scriptPubKey : bytes) (t : TxData) (txIdx' flags' : Z) :
  txIdx' < 0 \/ len (Inputs t) <= txIdx' ->
  NewEngine scriptPubKey (Some t) txIdx' flags' = BuildPanics IndexOutOfRange /\
  (forall (args : list bytes) vm, tx vm = Some t ->
     Prepare scriptPubKey args txIdx' vm = Returns (Some ErrInvalidIndex) vm).
Proof.
  intros Hout.
  assert (Hb : (txIdx' <? 0) || (txIdx' >=? len (Inputs t)) = true).
  { apply orb_true_iff. lia. }
  split.
  - unfold NewEngine, NewReusableEngine, newReusableEngine. rewrite Hb. reflexivity.
  - intros args vm Htx. rewrite Prepare_cases. unfold invalidIndex. rewrite Htx, Hb.
    reflexivity.
Qed.

(** ** Failures of Prepare *)

Lemma invalidIndex_spec (txIdx' : Z) vm :
  invalidIndex txIdx' vm = true <->
  txIdx' < 0 \/ exists t, tx vm = Some t /\ len (Inputs t) <= txIdx'.
Proof.
  unfold invalidIndex. rewrite orb_true_iff. destruct (tx vm) as [t|].
  - split.
    + intros [H|H]; [left; lia|right; exists t; split; [reflexivity|lia]].
    + intros [H|(t' & [= <-] & H)]; [left; lia|right; lia].
  - split.
    + intros [H|H]; [left; lia|discriminate].
    + intros [H|(t' & [=] & _)]. left; lia.
Qed.

Lemma stack_eq (s : stack) (l : list bytes) : s = mkStack l <-> stk s = l.
Proof. destruct s as [l']. simpl. split; congruence. Qed.

Lemma scriptStack_eq (s : scriptStack) (l : list stackFrame) :
  s = mkScriptStack l <-> frames s = l.
Proof. destruct s as [l']. simpl. split; congruence. Qed.

(** C10, as amended: [Prepare] is not atomic on its later failures.  When
    the index test fails, the error is InvalidIndex and the engine is left
    as it was.  When a later test fails (the script is longer than
    MaxProgramByteLength, or the parser reports an error), the data stack
    holds exactly the arguments and the execution stack is empty; so the
    two stacks are then as before the call if and only if, before the call,
    the data stack already held exactly the arguments and the execution
    stack was already empty. *)
Theorem Prepare_failure_stacks (script : bytes) (args : list bytes) (txIdx' : Z)
    vm (e : error) vm' :
  Prepare script args txIdx' vm = Returns (Some e) vm' ->
  (invalidIndex txIdx' vm = true -> e = ErrInvalidIndex /\ vm' = vm) /\
  (invalidIndex txIdx' vm = false ->
     ((len script > MaxProgramByteLength /\ e = ErrStackLongScript) \/
      (len script <= MaxProgramByteLength /\
       exists parsed, parseScript script = (parsed, Some e))) /\
     stk (dstack vm') = args /\ frames (estack vm') = [] /\
     (dstack vm' = dstack vm /\ estack vm' = estack vm <->
      stk (dstack vm) = args /\ frames (estack vm) = [])).
Proof.
  rewrite Prepare_cases. destruct (invalidIndex txIdx' vm).
  { intros [= <- <-]. split; [intros _; split; reflexivity|discriminate]. }
  intros H. split; [discriminate|]. intros _.
  assert (Hvm' : vm' = loaded args txIdx' vm /\
            ((len script > MaxProgramByteLength /\ e = ErrStackLongScript) \/
             (len script <= MaxProgramByteLength /\
              exists parsed, parseScript script = (parsed, Some e)))).
  { destruct (Z.gtb_spec (len script) MaxProgramByteLength) as [Hl|Hl].
    - injection H as <- <-. split; [reflexivity|left; split; [lia|reflexivity]].
    - destruct (parseScript script) as [parsed [e'|]]; [|discriminate].
      injection H as <- <-. split; [reflexivity|].
      right. split; [lia|]. exists parsed. reflexivity. }
  destruct Hvm' as [-> Hwhy]. simpl.
  split; [exact Hwhy|]. split; [reflexivity|]. split; [reflexivity|].
  split.
  - intros [Hd He]. split.
    + apply stack_eq. symmetry. exact Hd.
    + apply scriptStack_eq. symmetry. exact He.
  - intros [Hd He]. split; symmetry.
    + apply stack_eq. exact Hd.
    + apply scriptStack_eq. exact He.
Qed.

(** Whatever the ceilings are, some call of [Prepare] fails after the index
    test and yet leaves both stacks as they were: one with no arguments and
    a script just over the length limit, on an engine whose stacks are
    empty, as they are after construction. *)
Lemma Prepare_late_failure_on_empty_stacks vm :
  invalidIndex 0 vm = false ->
  stk (dstack vm) = [] -> frames (estack vm) = [] ->
  exists vm',
    Prepare (replicate (Z.to_nat (MaxProgramByteLength + 1)) Byte.x00) [] 0 vm
      = Returns (Some ErrStackLongScript) vm' /\
    dstack vm' = dstack vm /\ estack vm' = estack vm.
Proof.
  intros Hi Hd He. exists (loaded [] 0 vm).
  rewrite Prepare_cases, Hi.
  replace (len _ >? MaxProgramByteLength) with true.
  - split; [reflexivity|]. simpl. split; symmetry.
    + apply stack_eq. exact Hd.
    + apply scriptStack_eq. exact He.
  - symmetry. unfold len. rewrite length_replicate. apply Z.gtb_lt. lia.
Qed.

End Properties.

(** * Runs on concrete engines

    Each statement above is exercised on the reference instantiation. *)

Module Runs.

Import Reference.

Lemma executeOpcode_illegal_in_any_branch_run :
  isBranchExecuting (X := externals) (in_false_branch 0) = Returns false (in_false_branch 0) /\
  executeOpcode (X := externals) ref_opfunc (op OP_CAT) (in_false_branch 0)
    = Returns (Some ErrStackOpDisabled) (in_false_branch 0) /\
  executeOpcode (X := externals) ref_opfunc (op OP_VERIF) (in_false_branch 0)
    = Returns (Some ErrStackReservedOpcode) (in_false_branch 0).
Proof.
  split; [reflexivity|]. split.
  - apply (proj1 (executeOpcode_illegal_in_any_branch (X := externals)
                    ref_opfunc (op OP_CAT) (in_false_branch 0))).
    reflexivity.
  - apply (proj2 (executeOpcode_illegal_in_any_branch (X := externals)
                    ref_opfunc (op OP_VERIF) (in_false_branch 0)));
      reflexivity.
Defined.

Lemma Execute_unknown_version_run :
  scriptVersionVal engine_v7 = 7 /\
  Execute (X := externals) ref_opfunc 0 engine_v7 = Some (Returns None engine_v7).
Proof.
  split; [reflexivity|].
  apply (Execute_unknown_version (X := externals) ref_opfunc 0 engine_v7).
  right. reflexivity.
Defined.

Lemma executeOpcode_cost_accounting_run :
  isBranchExecuting (X := externals) (in_false_branch 201) = Returns false (in_false_branch 201) /\
  executeOpcode (X := externals) ref_opfunc (op OP_NOP) (in_false_branch 201)
    = Returns (Some ErrStackTooManyOperations) (counted (in_false_branch 201)) /\
  executeOpcode (X := externals) ref_opfunc (op OP_NOP) (in_false_branch 200)
    = branchGate (X := externals) ref_opfunc (op OP_NOP) (counted (in_false_branch 200)) /\
  executeOpcode (X := externals) ref_opfunc (mkParsed (mkOpcode 0x4c) (replicate 521 Byte.x00))
      (in_false_branch 0)
    = Returns (Some ErrStackElementTooBig) (in_false_branch 0).
Proof.
  split; [reflexivity|]. split; [|split].
  - apply (proj1 (proj1 (executeOpcode_cost_accounting (X := externals)
             (op OP_NOP) (in_false_branch 201) eq_refl eq_refl) eq_refl)).
    reflexivity.
  - apply (proj1 (proj2 (proj1 (executeOpcode_cost_accounting (X := externals)
             (op OP_NOP) (in_false_branch 200) eq_refl eq_refl) eq_refl))).
    discriminate.
  - apply (proj1 (proj2 (executeOpcode_cost_accounting (X := externals)
             (mkParsed (mkOpcode 0x4c) (replicate 521 Byte.x00))
             (in_false_branch 0) eq_refl eq_refl) ltac:(discriminate))).
    reflexivity.
Defined.

Lemma executeOpcode_skips_inactive_branch_run :
  executeOpcode (X := externals) ref_opfunc (op OP_NOP) (in_false_branch 0)
    = Returns None (counted (in_false_branch 0)) /\
  executeOpcode (X := externals) ref_opfunc (op OP_ENDIF) (in_false_branch 0)
    = ref_opfunc (mkOpcode OP_ENDIF) (op OP_ENDIF) (counted (in_false_branch 0)).
Proof.
  split.
  - apply (proj1 (executeOpcode_skips_inactive_branch (X := externals) ref_opfunc
             (op OP_NOP) (in_false_branch 0) false_frame OpCondFalse
             eq_refl eq_refl ltac:(discriminate) eq_refl eq_refl
             ltac:(discriminate) ltac:(discriminate))).
    reflexivity.
  - apply (proj2 (executeOpcode_skips_inactive_branch (X := externals) ref_opfunc
             (op OP_ENDIF) (in_false_branch 0) false_frame OpCondFalse
             eq_refl eq_refl ltac:(discriminate) eq_refl eq_refl
             ltac:(discriminate) ltac:(discriminate))).
    reflexivity.
Defined.

Lemma CheckErrorCondition_cases_run :
  CheckErrorCondition (X := externals) true (in_false_branch 0)
    = Returns (Some ErrStackScriptUnfinished) (in_false_branch 0) /\
  CheckErrorCondition (X := externals) true engine2
    = Returns (Some ErrStackEmptyStack) engine2 /\
  CheckErrorCondition (X := externals) true (finished [Byte.x01]) = Returns None engine2 /\
  CheckErrorCondition (X := externals) false (finished [Byte.x00])
    = Returns (Some ErrStackScriptFailed) engine2.
Proof.
  split; [|split; [|split]].
  - apply (proj1 (CheckErrorCondition_cases (X := externals) true (in_false_branch 0))).
    reflexivity.
  - apply (proj1 (proj2 (CheckErrorCondition_cases (X := externals) true engine2)));
      reflexivity.
  - apply (proj1 (proj2 (proj2 (CheckErrorCondition_cases (X := externals) true
             (finished [Byte.x01]))))
             [] [Byte.x01]); reflexivity.
  - apply (proj1 (proj2 (proj2 (CheckErrorCondition_cases (X := externals) false
             (finished [Byte.x00]))))
             [] [Byte.x00]); reflexivity.
Defined.

Lemma Prepare_keeps_available_run :
  Prepare (X := externals) [val_byte OP_1] [[Byte.x07]] 1 reserved
    = Returns None prepared_again /\
  available prepared_again = [30; 70] /\
  stk (dstack prepared_again) = [[Byte.x07]] /\
  frames (estack prepared_again) = [mkFrame [op OP_1] 0 []].
Proof.
  assert (E : Prepare (X := externals) [val_byte OP_1] [[Byte.x07]] 1 reserved
              = Returns None prepared_again) by reflexivity.
  split; [exact E|].
  destruct (Prepare_keeps_available (X := externals) _ _ _ _ _ _ E) as [Ha Hs].
  destruct (Hs eq_refl) as (Hd & parsed & Hp & Hf).
  split; [exact Ha|]. split; [exact Hd|]. reflexivity.
Defined.

Lemma checkHashTypeEncoding_cases_run :
  checkHashTypeEncoding (X := externals) engine2 0x84 = None /\
  checkHashTypeEncoding (X := externals) strict_engine 0x84 = Some (ErrInvalidHashType 0x84) /\
  checkHashTypeEncoding (X := externals) strict_engine 0x80 = Some (ErrInvalidHashType 0x80) /\
  checkHashTypeEncoding (X := externals) strict_engine 0x83 = None.
Proof.
  split; [|split; [|split]].
  - apply (proj1 (checkHashTypeEncoding_cases (X := externals) engine2 0x84)).
    reflexivity.
  - apply (proj1 (proj2 (checkHashTypeEncoding_cases (X := externals) strict_engine 0x84)
                    eq_refl)).
    right. reflexivity.
  - apply (proj1 (proj2 (checkHashTypeEncoding_cases (X := externals) strict_engine 0x80)
                    eq_refl)).
    left. reflexivity.
  - apply (proj1 (proj2 (proj2 (checkHashTypeEncoding_cases (X := externals)
                                  strict_engine 0x83) eq_refl))).
    split; discriminate.
Defined.

Lemma SetStack_GetStack_run :
  GetStack (SetStack [[Byte.x01]; []; [Byte.x02; Byte.x03]] (finished [Byte.xff]))
    = [[Byte.x01]; []; [Byte.x02; Byte.x03]] /\
  GetAltStack (SetAltStack [[Byte.x01]; []; [Byte.x02; Byte.x03]] (finished [Byte.xff]))
    = [[Byte.x01]; []; [Byte.x02; Byte.x03]].
Proof.
  apply (SetStack_GetStack (X := externals)).
  repeat constructor; discriminate.
Defined.

Lemma NewEngine_index_unchecked_run :
  NewEngine (X := externals) [val_byte OP_1] (Some tx2) 2 0 = BuildPanics IndexOutOfRange /\
  Prepare (X := externals) [val_byte OP_1] [] 2 engine2 = Returns (Some ErrInvalidIndex) engine2.
Proof.
  destruct (NewEngine_index_unchecked (X := externals) [val_byte OP_1] tx2 2 0) as [Hn Hp].
  - right. discriminate.
  - split; [exact Hn|]. apply Hp. reflexivity.
Defined.

Lemma Prepare_failure_stacks_run :
  exists vm',
    Prepare (X := externals) long_script [[Byte.x07]] 0 engine2
      = Returns (Some ErrStackLongScript) vm' /\
    stk (dstack vm') = [[Byte.x07]] /\ frames (estack vm') = [] /\
    dstack vm' <> dstack engine2.
Proof.
  exists (loaded [[Byte.x07]] 0 engine2).
  assert (E : Prepare (X := externals) long_script [[Byte.x07]] 0 engine2
              = Returns (Some ErrStackLongScript) (loaded [[Byte.x07]] 0 engine2))
    by (vm_compute; reflexivity).
  split; [exact E|].
  destruct (Prepare_failure_stacks (X := externals) _ _ _ _ _ _ E) as [_ H].
  destruct (H eq_refl) as (_ & Hd & He & Hiff).
  split; [exact Hd|]. split; [exact He|].
  intros Heq. discriminate Heq.
Defined.

(** The claim C10 as stated fails here: this call of [Prepare] on a newly
    built engine fails with the ScriptTooLong error, not InvalidIndex, and
    yet both stacks are as they were before the call. *)
Lemma Prepare_too_long_leaves_fresh_stacks :
  exists vm',
    Prepare (X := externals) long_script [] 0 engine2
      = Returns (Some ErrStackLongScript) vm' /\
    dstack vm' = dstack engine2 /\ estack vm' = estack engine2 /\
    ErrStackLongScript <> ErrInvalidIndex.
Proof.
  exists (loaded [] 0 engine2).
  split; [vm_compute; reflexivity|].
  split; [reflexivity|]. split; [reflexivity|]. discriminate.
Qed.

End Runs.

(** * Further properties of the engine *)

Section Lifecycle.

Context `{X : Externals}.

Implicit Types (vm : Engine) (script : bytes) (args : list bytes).

(** X1: [newReusableEngine] never fails.  The engine it builds records the
    transaction, the block and the flags it was given, has empty stacks and
    a zero counter; with a transaction its table of available amounts is
    the list of the outputs' amounts, in order, and it has a signature
    hasher; without one the table is empty and there is no hasher. *)
Theorem newReusableEngine_built (tx' : option TxData) (block' : option Block) (flags' : Z) :
  exists vm,
    newReusableEngine tx' block' flags' = (Some vm, None) /\
    tx vm = tx' /\ block vm = block' /\ flags vm = flags' /\
    available vm = match tx' with Some t => Amount <$> Outputs t | None => [] end /\
    sigHasher vm = NewSigHasher <$> tx' /\
    stk (dstack vm) = [] /\ stk (astack vm) = [] /\ frames (estack vm) = [] /\
    numOps vm = 0.
Proof.
  destruct tx' as [t|]; eexists; (split; [reflexivity|]); simpl;
    repeat (split; [reflexivity|]); try reflexivity.
  split; [|repeat split].
  rewrite (seed_loop (Outputs t) 0) by (rewrite length_replicate; reflexivity).
  reflexivity.
Qed.

Lemma land_bit (f n : Z) :
  0 <= n -> Z.land f (Z.shiftl 1 n) = if Z.testbit f n then Z.shiftl 1 n else 0.
Proof.
  intros Hn. rewrite Z.shiftl_1_l. apply Z.bits_inj'. intros m Hm.
  rewrite Z.land_spec, Z.pow2_bits_eqb by assumption.
  destruct (Z.eqb_spec n m) as [->|Hne].
  - destruct (Z.testbit f m); simpl.
    + rewrite Z.pow2_bits_true by assumption. reflexivity.
    + rewrite Z.bits_0. reflexivity.
  - rewrite andb_false_r. destruct (Z.testbit f n).
    + rewrite Z.pow2_bits_false by assumption. reflexivity.
    + rewrite Z.bits_0. reflexivity.
Qed.

(** X2: for a flag made of one bit, as the six script flags are, [hasFlag]
    tests that bit of the engine's flags and nothing else: flags are set
    and read independently of one another. *)
Theorem hasFlag_bit vm (n : Z) :
  0 <= n -> hasFlag vm (Z.shiftl 1 n) = Z.testbit (flags vm) n.
Proof.
  intros Hn. unfold hasFlag. rewrite land_bit by assumption.
  assert (Hpos : 0 < Z.shiftl 1 n).
  { rewrite Z.shiftl_1_l. apply Z.pow_pos_nonneg; lia. }
  destruct (Z.testbit (flags vm) n).
  - apply Z.eqb_refl.
  - apply Z.eqb_neq. lia.
Qed.

(** X3: the verdict of [checkHashTypeEncoding] does not depend on the
    any-one-can-pay bits of the hash type: setting them in a hash type
    changes neither an acceptance into a failure nor a failure into an
    acceptance. *)
Theorem checkHashTypeEncoding_ignores_anyonecanpay vm (hashType : Z) :
  checkHashTypeEncoding vm (Z.lor hashType SigHashAnyOneCanPay) = None <->
  checkHashTypeEncoding vm hashType = None.
Proof.
  unfold checkHashTypeEncoding.
  assert (E : Z.land (Z.lor hashType SigHashAnyOneCanPay) (Z.lnot SigHashAnyOneCanPay)
              = Z.land hashType (Z.lnot SigHashAnyOneCanPay)).
  { apply Z.bits_inj'. intros n Hn.
    rewrite !Z.land_spec, Z.lor_spec, Z.lnot_spec by assumption.
    destruct (Z.testbit hashType n), (Z.testbit SigHashAnyOneCanPay n); reflexivity. }
  rewrite E.
  destruct (negb (hasFlag vm ScriptVerifyStrictEncoding)); [tauto|].
  destruct (_ || _); [split; discriminate|tauto].
Qed.

(** [Prepare] has no assignment to the table of available amounts. *)
Lemma Prepare_keeps_available_aux (script : bytes) (args : list bytes) (txIdx' : Z)
    vm (err : option error) vm' :
  Prepare script args txIdx' vm = Returns err vm' -> available vm' = available vm.
Proof.
  rewrite Prepare_cases.
  destruct (invalidIndex txIdx' vm); [intros [= <- <-]; reflexivity|].
  destruct (len script >? MaxProgramByteLength); [intros [= <- <-]; reflexivity|].
  destruct (parseScript script) as [parsed [e|]]; intros [= <- <-]; reflexivity.
Qed.

(** X4: whatever [Prepare] returns, it has not touched the alternate stack,
    the transaction, the block, the signature hasher or the flags of the
    engine: of the stacks only the data stack and the execution stack are
    reset. *)
Theorem Prepare_frame script args (txIdx' : Z) vm (err : option error) vm' :
  Prepare script args txIdx' vm = Returns err vm' ->
  astack vm' = astack vm /\ tx vm' = tx vm /\ block vm' = block vm /\
  sigHasher vm' = sigHasher vm /\ flags vm' = flags vm.
Proof.
  rewrite Prepare_cases.
  destruct (invalidIndex txIdx' vm); [intros [= <- <-]; repeat split|].
  destruct (len script >? MaxProgramByteLength); [intros [= <- <-]; repeat split|].
  destruct (parseScript script) as [parsed [e|]]; intros [= <- <-]; repeat split.
Qed.

(** X5: a successful [Prepare] forgets the previous run: the engine it
    leaves depends on the engine it was called on only through the alternate
    stack, the transaction, the block, the hasher, the flags and the
    available amounts, not through the data stack, the execution stack, the
    counter, the cached version or the input index left by an earlier
    input. *)
Theorem Prepare_forgets_previous_run script args (txIdx' : Z) vm1 vm2 vm' :
  astack vm1 = astack vm2 -> tx vm1 = tx vm2 -> block vm1 = block vm2 ->
  sigHasher vm1 = sigHasher vm2 -> flags vm1 = flags vm2 ->
  available vm1 = available vm2 ->
  Prepare script args txIdx' vm1 = Returns None vm' ->
  Prepare script args txIdx' vm2 = Returns None vm'.
Proof.
  intros Ha Ht Hb Hs Hf Hv. rewrite !Prepare_cases.
  unfold invalidIndex. rewrite <- Ht.
  destruct (_ || _); [discriminate|].
  destruct (len script >? MaxProgramByteLength); [discriminate|].
  destruct (parseScript script) as [parsed [e|]]; [discriminate|].
  intros [= <-]. f_equal. unfold loaded, set_numOps, set_estack, set_scriptVersionVal,
    set_scriptVersion. simpl. rewrite Ha, Ht, Hb, Hs, Hf, Hv. reflexivity.
Qed.

(** X6: after a successful [Prepare] the engine is ready for the first
    opcode: the counter is zero, the input index is the one given, the
    current branch is executing, and, on an engine with a transaction, the
    current input exists, so [currentTxInput] returns it rather than
    panicking. *)
Theorem Prepare_ready script args (txIdx' : Z) vm vm' :
  Prepare script args txIdx' vm = Returns None vm' ->
  numOps vm' = 0 /\ txIdx vm' = txIdx' /\
  isBranchExecuting vm' = Returns true vm' /\
  (forall t, tx vm = Some t ->
     exists input, Inputs t !! Z.to_nat txIdx' = Some input /\
                   currentTxInput vm' = Returns input vm').
Proof.
  rewrite Prepare_cases. unfold invalidIndex.
  destruct (_ || _) eqn:Hi; [discriminate|].
  destruct (len script >? MaxProgramByteLength); [discriminate|].
  destruct (parseScript script) as [parsed [e|]]; [discriminate|].
  intros [= <-]. repeat split.
  intros t Ht. unfold currentTxInput. simpl. rewrite Ht in *.
  rewrite Hi. apply orb_false_iff in Hi. unfold len in Hi.
  destruct (lookup_lt_is_Some_2 (Inputs t) (Z.to_nat txIdx')) as [input Hin]; [lia|].
  exists input. rewrite Hin. split; reflexivity.
Qed.

(** X7: for an index inside the inputs of the transaction [NewEngine] is
    [NewReusableEngine] followed by [Prepare] with the witness of that
    input as arguments: it returns the engine [Prepare] leaves, together
    with the error of [Prepare]. *)
Theorem NewEngine_in_range (scriptPubKey : bytes) (t : TxData) (txIdx' flags' : Z)
    (input : TxInput) :
  0 <= txIdx' -> Inputs t !! Z.to_nat txIdx' = Some input ->
  exists vm0 err vm',
    NewReusableEngine (Some t) flags' = (Some vm0, None) /\
    Prepare scriptPubKey (InputWitness input) txIdx' vm0 = Returns err vm' /\
    NewEngine scriptPubKey (Some t) txIdx' flags' = Built (Some vm') err.
Proof.
  intros H0 Hin.
  destruct (newReusableEngine_built (Some t) None flags') as (vm0 & Hvm0 & _).
  destruct (Prepare_returns scriptPubKey (InputWitness input) txIdx' vm0) as (err & vm' & HP).
  exists vm0, err, vm'. split; [exact Hvm0|]. split; [exact HP|].
  unfold NewEngine, NewReusableEngine. rewrite Hvm0.
  assert (Hlt : (Z.to_nat txIdx' < length (Inputs t))%nat)
    by (apply lookup_lt_is_Some; eauto).
  replace ((txIdx' <? 0) || (txIdx' >=? len (Inputs t))) with false
    by (symmetry; apply orb_false_iff; unfold len; lia).
  rewrite Hin, HP. reflexivity.
Qed.

(** X8: [NewEngineForBlock] on a block returns the error of [PushedData]
    and no engine when the signature script of the block does not parse;
    otherwise it returns what [Prepare] leaves for input index 0 with the
    pushed data as arguments, and that call never fails the index test:
    the engine has no transaction to check the index against. *)
Theorem NewEngineForBlock_cases (scriptPubKey : bytes) (b : Block) (flags' : Z) :
  match PushedData (SignatureScript b) with
  | (_, Some e) => NewEngineForBlock scriptPubKey (Some b) flags' = Built None (Some e)
  | (pushed, None) =>
      exists vm0 err vm',
        newReusableEngine None (Some b) flags' = (Some vm0, None) /\
        invalidIndex 0 vm0 = false /\
        Prepare scriptPubKey pushed 0 vm0 = Returns err vm' /\
        NewEngineForBlock scriptPubKey (Some b) flags' = Built (Some vm') err /\
        tx vm' = None /\ block vm' = Some b /\ available vm' = []
  end.
Proof.
  unfold NewEngineForBlock. simpl.
  destruct (PushedData (SignatureScript b)) as [pushed [e|]]; [reflexivity|].
  eexists.
  destruct (Prepare_returns scriptPubKey pushed 0
              (mkEngine [] 0 (mkScriptStack []) (mkStack []) (mkStack [])
                        None (Some b) None 0 0 flags' [])) as (err & vm' & HP).
  exists err, vm'. split; [reflexivity|]. split; [reflexivity|].
  split; [exact HP|]. rewrite HP. split; [reflexivity|].
  destruct (Prepare_frame _ _ _ _ _ _ HP) as (_ & Ht & Hb & _).
  pose proof (Prepare_keeps_available_aux _ _ _ _ _ _ HP) as Ha.
  rewrite Ht, Hb, Ha. repeat split.
Qed.

End Lifecycle.

Section Running.

Context `{X : Externals}.

Implicit Types (opfunc : handler) (pop : parsedOpcode) (vm : Engine).

(** The completion check once the execution stack is empty. *)
Lemma CheckErrorCondition_empty vm :
  ScriptStack.empty (estack vm) = true ->
  (Stack.Depth (dstack vm) = 0 ->
     CheckErrorCondition true vm = Returns (Some ErrStackEmptyStack) vm) /\
  (forall below top, stk (dstack vm) = below ++ [top] ->
     CheckErrorCondition true vm =
       Returns (if asBool top then None else Some ErrStackScriptFailed)
               (set_dstack (mkStack below) vm)).
Proof.
  intros He. split.
  - intros Hd. unfold CheckErrorCondition. run. rewrite He, Hd. reflexivity.
  - intros below top Hd. unfold CheckErrorCondition. run. rewrite He. simpl.
    unfold Stack.Depth. rewrite Hd, length_app. simpl.
    destruct (Z.ltb_spec (Z.of_nat (length below + 1)) 1) as [E|_]; [lia|].
    unfold PopBool. destruct (dstack vm) as [l]. simpl in Hd. subst l.
    rewrite PopByteArray_snoc. destruct (asBool top); reflexivity.
Qed.

Lemma dropFinished_length (l : list stackFrame) :
  (length (dropFinished l) <= length l)%nat.
Proof.
  induction l as [|f l IH]; simpl; [lia|].
  destruct (frame_done f); simpl; lia.
Qed.

Lemma nextFrame_spec (s : scriptStack) (done : bool) (err : option error) (s' : scriptStack) :
  nextFrame s = (done, err, s') ->
  err = None /\ (length (frames s') <= length (frames s))%nat /\
  (done = true <-> frames s' = []).
Proof.
  unfold nextFrame. intros [= <- <- <-]. simpl. split; [reflexivity|]. split.
  - rewrite length_rev. etransitivity; [apply dropFinished_length|].
    rewrite length_rev. lia.
  - unfold ScriptStack.empty. simpl.
    destruct (rev (dropFinished (rev (frames s)))); split; congruence.
Qed.

(** X9: a step that returns without an error leaves the engine within its
    resource bounds: the data and alternate stacks together hold at most
    maxStackSize elements and the execution stack at most
    maxExecutionStackSize frames; and it reports completion exactly when it
    has left the execution stack empty. *)
Theorem Step_keeps_bounds opfunc vm (done : bool) vm' :
  Step opfunc vm = Returns (done, None) vm' ->
  Stack.Depth (dstack vm') + Stack.Depth (astack vm') <= maxStackSize /\
  ScriptStack.Depth (estack vm') <= maxExecutionStackSize /\
  (done = true -> frames (estack vm') = []).
Proof.
  unfold Step. run.
  destruct (curPC (estack vm)) as [[fr off] [e|]]; [discriminate|].
  destruct (ScriptStack.Peek (estack vm)) as [frame|]; [|discriminate].
  destruct (frame_opcode frame off) as [opcode|]; [|discriminate].
  destruct (executeOpcode opfunc opcode vm) as [[e|] vm1|]; try discriminate.
  destruct (Z.gtb_spec (Stack.Depth (dstack vm1) + Stack.Depth (astack vm1)) maxStackSize)
    as [|Hd]; [discriminate|].
  destruct (Z.gtb_spec (ScriptStack.Depth (estack vm1)) maxExecutionStackSize)
    as [|He]; [discriminate|].
  set (i := (length (frames (estack vm)) - 1)%nat).
  set (live := default frame (frames (estack vm1) !! i)).
  destruct (frame_done (frame_step live)).
  - pose proof (nextFrame_spec
                  (mkScriptStack (<[i := frame_step live]> (frames (estack vm1))))
                  _ _ _ eq_refl) as (_ & Hlen & Hdone).
    simpl in Hlen, Hdone. rewrite length_insert in Hlen.
    intros [= <- <-]. simpl. split; [exact Hd|]. split.
    + unfold ScriptStack.Depth in *. simpl. lia.
    + apply Hdone.
  - intros [= <- <-]. simpl. split; [exact Hd|]. split.
    + unfold ScriptStack.Depth in *. simpl. rewrite length_insert. lia.
    + discriminate.
Qed.

Lemma stepLoop_done opfunc (fuel : nat) : forall vm vm',
  stepLoop opfunc fuel vm = Some (Returns None vm') ->
  frames (estack vm') = [] /\
  Stack.Depth (dstack vm') + Stack.Depth (astack vm') <= maxStackSize.
Proof.
  induction fuel as [|fuel IH]; intros vm vm'; simpl; [discriminate|].
  destruct (Step opfunc vm) as [[[|] [e|]] vm1|] eqn:HS; try discriminate.
  - intros [= <-]. apply Step_keeps_bounds in HS as (Hd & _ & Hdone).
    split; [apply Hdone; reflexivity|exact Hd].
  - apply IH.
Qed.

(** A larger step budget does not change a result. *)
Lemma stepLoop_more_fuel opfunc (fuel extra : nat) : forall vm r,
  stepLoop opfunc fuel vm = Some r -> stepLoop opfunc (fuel + extra) vm = Some r.
Proof.
  induction fuel as [|fuel IH]; intros vm r; simpl; [discriminate|].
  destruct (Step opfunc vm) as [[[|] [e|]] vm1|]; try (intros H; exact H).
  apply IH.
Qed.

(** X10: what a nil result of [Execute] means.  Either the script version
    is unknown and the engine was not touched, or the step loop ran until
    the execution stack was empty, the data stack then had a top element
    that decodes as true, and [Execute] popped it: the engine returned is
    the one the last step left, less that element. *)
Theorem Execute_success opfunc (fuel : nat) vm vm' :
  Execute opfunc fuel vm = Some (Returns None vm') ->
  (isKnownVersion (scriptVersionVal vm) = false /\ vm' = vm) \/
  (isKnownVersion (scriptVersionVal vm) = true /\
   exists vm1 below top,
     stepLoop opfunc fuel vm = Some (Returns None vm1) /\
     frames (estack vm1) = [] /\
     stk (dstack vm1) = below ++ [top] /\ asBool top = true /\
     vm' = set_dstack (mkStack below) vm1).
Proof.
  unfold Execute. destruct (isKnownVersion (scriptVersionVal vm)); simpl.
  2:{ intros [= <-]. left. split; reflexivity. }
  destruct (stepLoop opfunc fuel vm) as [[[e|] vm1|]|] eqn:HL; try discriminate.
  intros [= HC]. right. split; [reflexivity|].
  destruct (stepLoop_done _ _ _ _ HL) as [He _].
  assert (Hempty : ScriptStack.empty (estack vm1) = true)
    by (unfold ScriptStack.empty; rewrite He; reflexivity).
  destruct (stk (dstack vm1)) as [|x l] eqn:Hs using rev_ind.
  - destruct (CheckErrorCondition_empty vm1 Hempty) as [Hz _].
    rewrite Hz in HC by (unfold Stack.Depth; rewrite Hs; reflexivity). discriminate.
  - clear IHl. destruct (CheckErrorCondition_empty vm1 Hempty) as [_ Hp].
    rewrite (Hp l x Hs) in HC. destruct (asBool x) eqn:Hb; [|discriminate].
    injection HC as <-. exists vm1, l, x. repeat split; assumption.
Qed.

(** X11: [Execute] on an engine with a known script version and an empty
    execution stack (one that was never prepared, or whose script has run
    to its end) is rejected: with any budget of at least one step it
    returns the error [curPC] reports for an empty execution stack and
    leaves the engine as it was.  In particular [Execute] does not succeed
    twice in a row on a known version: after a nil result the execution
    stack is empty. *)
Theorem Execute_needs_Prepare opfunc (fuel : nat) vm :
  isKnownVersion (scriptVersionVal vm) = true ->
  (frames (estack vm) = [] ->
     Execute opfunc (S fuel) vm = Some (Returns (Some ErrStackScriptUnfinished) vm)) /\
  (forall fuel0 vm0,
     isKnownVersion (scriptVersionVal vm0) = true ->
     Execute opfunc fuel0 vm0 = Some (Returns None vm) ->
     Execute opfunc (S fuel) vm = Some (Returns (Some ErrStackScriptUnfinished) vm)).
Proof.
  intros Hk.
  assert (Hbase : frames (estack vm) = [] ->
            Execute opfunc (S fuel) vm = Some (Returns (Some ErrStackScriptUnfinished) vm)).
  { intros He. unfold Execute. rewrite Hk. simpl.
    unfold Step, curPC, ScriptStack.Peek. run. rewrite He. reflexivity. }
  split; [exact Hbase|].
  intros fuel0 vm0 Hk0 H0. apply Hbase.
  apply Execute_success in H0 as [[Hu _]|(_ & vm1 & below & top & _ & He & _ & _ & ->)].
  - congruence.
  - exact He.
Qed.

(** X12: in a branch that is executing (the condition stack of the top
    frame is empty, or its top tag is one of the two active tags), an
    opcode that passed the legality and cost checks is handed to its
    handler: the result of [executeOpcode] is the result of the handler on
    the engine the cost accounting left. *)
Theorem executeOpcode_dispatches_in_active_branch opfunc pop vm f :
  disabled_here pop vm = false -> alwaysIllegal pop = false ->
  (if value (pop_opcode pop) >? OP_16
   then numOps (counted vm) <= maxOpsPerScript
   else len (data pop) <= MaxScriptElementSize) ->
  ScriptStack.Peek (estack vm) = Some f ->
  (last (condStack f) = None \/
   last (condStack f) = Some OpCondIfTrue \/
   last (condStack f) = Some OpCondWhileTrue) ->
  executeOpcode opfunc pop vm =
    opfunc (pop_opcode pop) pop
           (if value (pop_opcode pop) >? OP_16 then counted vm else vm).
Proof.
  intros Hd Hi Hcost Hf Hact.
  assert (Hgate : forall w, ScriptStack.Peek (estack w) = Some f ->
            branchGate opfunc pop w = opfunc (pop_opcode pop) pop w).
  { intros w Hw. unfold branchGate. run. rewrite (isBranchExecuting_spec w f Hw).
    destruct Hact as [->|[->| ->]]; simpl.
    - reflexivity.
    - rewrite Z.eqb_refl. reflexivity.
    - rewrite Z.eqb_refl, orb_true_r. reflexivity. }
  rewrite (executeOpcode_legal opfunc pop vm Hd Hi).
  destruct (value (pop_opcode pop) >? OP_16).
  - replace (numOps (counted vm) >? maxOpsPerScript) with false by lia.
    apply Hgate. exact Hf.
  - replace (len (data pop) >? MaxScriptElementSize) with false by lia.
    apply Hgate. exact Hf.
Qed.

(** X13: [PushScript] adds one frame on top of the execution stack and
    touches nothing else, the data stack included; the new frame starts at
    its first opcode with no open conditional, so the branch on top is
    executing whatever the state of the frames below. *)
Theorem PushScript_fresh_frame (newScript : list parsedOpcode) vm :
  exists vm',
    PushScript newScript vm = Returns tt vm' /\
    frames (estack vm') = frames (estack vm) ++ [mkFrame newScript 0 []] /\
    ScriptStack.Depth (estack vm') = ScriptStack.Depth (estack vm) + 1 /\
    vm' = set_estack (estack vm') vm /\
    isBranchExecuting vm' = Returns true vm'.
Proof.
  eexists. split; [reflexivity|]. simpl. split; [reflexivity|]. split.
  - unfold ScriptStack.Depth, ScriptStack.Push. simpl. rewrite length_app. simpl. lia.
  - split; [reflexivity|].
    apply (isBranchExecuting_spec _ (mkFrame newScript 0 [])).
    unfold ScriptStack.Peek. simpl. apply last_snoc.
Qed.

End Running.

(** * Stack introspection and disassembly *)

Section Introspection.

Implicit Types (vm : Engine) (s : stack).

Lemma getStack_is_stk s : getStack s = stk s.
Proof. destruct s as [l]. apply getStack_stk. Qed.

(** X14: [getStack] lists the stack bottom to top and leaves it alone: it
    has one entry per element, the element that [PeekByteArray] finds [i]
    places below the top is its entry [i] places before the end, and after
    a push the pushed element is its last entry, behind the entries it had
    before. *)
Theorem getStack_order s :
  len (getStack s) = Stack.Depth s /\
  (forall (i : Z) (x : bytes), 0 <= i < Stack.Depth s ->
     Stack.PeekByteArray i s = (x, None) <->
     getStack s !! Z.to_nat (Stack.Depth s - 1 - i) = Some x) /\
  (forall x : bytes, getStack (Stack.PushByteArray x s) = getStack s ++ [x]).
Proof.
  split; [|split].
  - rewrite getStack_is_stk. reflexivity.
  - intros i x Hi. rewrite getStack_is_stk. unfold Stack.PeekByteArray.
    destruct (Z.ltb_spec i 0) as [E|_]; [lia|].
    destruct (Z.geb_spec i (Stack.Depth s)) as [E|_]; [lia|]. simpl.
    replace (Stack.Depth s - 1 - i) with (Stack.Depth s - i - 1) by lia.
    destruct (stk s !! Z.to_nat (Stack.Depth s - i - 1)) as [y|] eqn:Hy.
    + split; congruence.
    + split; [discriminate|discriminate].
  - intros x. rewrite !getStack_is_stk. reflexivity.
Qed.

(** X15: [SetStack] replaces the data stack and nothing else.  The depth of
    the data stack becomes the number of elements given, an earlier
    [SetStack] leaves no trace, and the alternate stack reads as before;
    [SetAltStack] likewise leaves the data stack as it was. *)
Theorem SetStack_replaces (data data' : list bytes) vm :
  Stack.Depth (dstack (SetStack data vm)) = len data /\
  SetStack data (SetStack data' vm) = SetStack data vm /\
  GetAltStack (SetStack data vm) = GetAltStack vm /\
  GetStack (SetAltStack data vm) = GetStack vm /\
  SetStack data vm = set_dstack (mkStack data) vm.
Proof.
  unfold SetStack, SetAltStack, GetStack, GetAltStack. simpl.
  rewrite !setStack_stk. repeat split.
Qed.

End Introspection.

Section Disassembly.

Abbreviation string := String.string.
Infix "+++" := String.append (at level 60, right associativity).

(** The text of one instruction, [frame.disasm(idx)], and of the
    instruction at an offset of a frame, [estack.disasm(frame, off)], are
    produced outside engine.go. *)
Variable frame_disasm : stackFrame -> nat -> string.
Variable estack_disasm : scriptStack -> option stackFrame -> Z -> string.

Definition newline : string := String.String (Ascii.ascii_of_nat 10) String.EmptyString.

Definition DisasmPC : M (string * option error) := fun vm =>
  let '(frame, off, err) := curPC (estack vm) in
  match err with
  | Some e => Returns (String.EmptyString, Some e) vm
  | None => Returns (estack_disasm (estack vm) frame off, None) vm
  end.

(** [DisasmScript] walks the frames from the last index down and, in each,
    the instructions from the first on, appending a line for each. *)
Definition DisasmScript : M (string * option error) := fun vm =>
  let fs := frames (estack vm) in
  match
    foldl (fun (acc : option string) (fIdx : nat) =>
             match acc, fs !! (length fs - fIdx - 1)%nat with
             | Some disstr, Some frame =>
                 Some (foldl (fun disstr idx => (disstr +++ frame_disasm frame idx) +++ newline)
                             disstr (seq 0 (length (script frame))))
             | _, _ => None
             end)
          (Some String.EmptyString) (seq 0 (length fs))
  with
  | Some disstr => Returns (disstr, None) vm
  | None => Panics IndexOutOfRange
  end.

(** The lines of one frame, first instruction first. *)
Definition frame_text (f : stackFrame) : string :=
  foldr (fun idx rest => frame_disasm f idx +++ newline +++ rest)
        String.EmptyString (seq 0 (length (script f))).

Lemma append_assoc (a b c : string) : (a +++ b) +++ c = a +++ b +++ c.
Proof. induction a as [|ch a IH]; simpl; [reflexivity|]. rewrite IH. reflexivity. Qed.

Lemma append_empty_r (a : string) : a +++ String.EmptyString = a.
Proof. induction a as [|ch a IH]; simpl; [reflexivity|]. rewrite IH. reflexivity. Qed.

Lemma frame_loop (f : stackFrame) (idxs : list nat) : forall disstr : string,
  foldl (fun disstr idx => (disstr +++ frame_disasm f idx) +++ newline) disstr idxs
  = disstr +++ foldr (fun idx rest => frame_disasm f idx +++ newline +++ rest)
                     String.EmptyString idxs.
Proof.
  induction idxs as [|i idxs IH]; intros disstr; simpl.
  - rewrite append_empty_r. reflexivity.
  - rewrite IH, !append_assoc. reflexivity.
Qed.

Lemma frames_loop (fs : list stackFrame) (k : nat) :
  (k <= length fs)%nat ->
  foldl (fun (acc : option string) (fIdx : nat) =>
           match acc, fs !! (length fs - fIdx - 1)%nat with
           | Some disstr, Some frame =>
               Some (foldl (fun disstr idx => (disstr +++ frame_disasm frame idx) +++ newline)
                           disstr (seq 0 (length (script frame))))
           | _, _ => None
           end)
        (Some String.EmptyString) (seq 0 k)
  = Some (foldr (fun f rest => frame_text f +++ rest) String.EmptyString
                (take k (reverse fs))).
Proof.
  induction k as [|k IH]; intros Hk; [reflexivity|].
  rewrite seq_S, foldl_app, IH by lia. simpl.
  destruct (lookup_lt_is_Some_2 fs (length fs - k - 1)%nat) as [f Hf]; [lia|].
  rewrite Hf, frame_loop. f_equal.
  assert (Hr : reverse fs !! k = Some f).
  { rewrite reverse_lookup by lia. rewrite <- Hf. f_equal. lia. }
  rewrite (take_S_r _ _ _ Hr), foldr_app. simpl. fold (frame_text f).
  rewrite append_empty_r.
  generalize (take k (reverse fs)). intros l. induction l as [|g l IHl]; simpl.
  - reflexivity.
  - rewrite append_assoc, IHl. reflexivity.
Qed.

(** X16: [DisasmScript] never fails and never changes the engine, and it
    prints the innermost frame first: once [PushScript] has pushed a frame,
    the disassembly is the lines of the pushed script, first instruction
    first, followed by the disassembly as it was before the push. *)
Theorem DisasmScript_after_PushScript (newScript : list parsedOpcode) vm :
  exists (before : string) vm',
    PushScript newScript vm = Returns tt vm' /\
    DisasmScript vm = Returns (before, None) vm /\
    DisasmScript vm' =
      Returns (frame_text (mkFrame newScript 0 []) +++ before, None) vm'.
Proof.
  eexists. eexists. split; [reflexivity|].
  unfold DisasmScript. simpl.
  rewrite !frames_loop by lia. rewrite !firstn_all2 by (rewrite length_reverse; lia).
  split; [reflexivity|].
  unfold ScriptStack.Push. simpl. rewrite reverse_snoc. reflexivity.
Qed.

End Disassembly.

(** * Cost accounting across a skipped region *)

Section SkippedRegion.

Context `{X : Externals}.

Implicit Types (opfunc : handler) (pop : parsedOpcode) (vm : Engine).

(** An opcode that is legal for a script version and context, counted as
    an operation and not a conditional: in a branch that is not executing
    it is skipped. *)
Definition skippable (version : Z) (isBlock : bool) pop : Prop :=
  isDisabled pop version isBlock = false /\ alwaysIllegal pop = false /\
  isConditional pop = false /\ value (pop_opcode pop) > OP_16.

(** The engine stands at offset [p] of its top frame, inside a branch that
    is not executing, within the stack bounds. *)
Definition in_skipped_branch vm (below : list stackFrame) (scr : list parsedOpcode)
    (p : Z) (cs : list Z) : Prop :=
  frames (estack vm) = below ++ [mkFrame scr p cs] /\ 0 <= p /\
  (exists tag, last cs = Some tag /\ tag <> OpCondIfTrue /\ tag <> OpCondWhileTrue) /\
  Stack.Depth (dstack vm) + Stack.Depth (astack vm) <= maxStackSize /\
  ScriptStack.Depth (estack vm) <= maxExecutionStackSize.

(** The engine one skipped opcode later. *)
Definition skipped_one vm (below : list stackFrame) (scr : list parsedOpcode)
    (p : Z) (cs : list Z) : Engine :=
  set_estack (mkScriptStack (below ++ [mkFrame scr (p + 1) cs])) (counted vm).

Lemma Step_fetch vm below scr p cs pop :
  frames (estack vm) = below ++ [mkFrame scr p cs] -> 0 <= p ->
  scr !! Z.to_nat p = Some pop ->
  curPC (estack vm) = (Some (mkFrame scr p cs), p, None) /\
  ScriptStack.Peek (estack vm) = Some (mkFrame scr p cs) /\
  frame_opcode (mkFrame scr p cs) p = Some pop.
Proof.
  intros Hf Hp Hpop.
  assert (HP : ScriptStack.Peek (estack vm) = Some (mkFrame scr p cs)).
  { unfold ScriptStack.Peek. rewrite Hf. apply last_snoc. }
  split; [unfold curPC; rewrite HP; reflexivity|]. split; [exact HP|].
  unfold frame_opcode. simpl.
  assert (Hlt : (Z.to_nat p < length scr)%nat) by (apply lookup_lt_is_Some; eauto).
  replace ((p <? 0) || (p >=? len scr)) with false; [exact Hpop|].
  symmetry. apply orb_false_iff. unfold len. lia.
Qed.

Lemma executeOpcode_skipped opfunc pop vm below scr p cs :
  in_skipped_branch vm below scr p cs ->
  skippable (currentVersion vm) (bool_decide (block vm <> None)) pop ->
  executeOpcode opfunc pop vm =
    if numOps (counted vm) >? maxOpsPerScript
    then Returns (Some ErrStackTooManyOperations) (counted vm)
    else Returns None (counted vm).
Proof.
  intros (Hf & _ & (tag & Ht & H1 & H2) & _) (Hd & Hi & Hc & Hv).
  rewrite (executeOpcode_legal opfunc pop vm Hd Hi).
  replace (value (pop_opcode pop) >? OP_16) with true by lia.
  destruct (numOps (counted vm) >? maxOpsPerScript); [reflexivity|].
  rewrite (branchGate_inactive opfunc pop (counted vm) (mkFrame scr p cs) tag);
    [rewrite Hc; reflexivity| |exact Ht|exact H1|exact H2].
  unfold ScriptStack.Peek. simpl. rewrite Hf. apply last_snoc.
Qed.

(** A step over a skipped opcode that exhausts the counter. *)
Lemma Step_skipped_over opfunc pop vm below scr p cs :
  in_skipped_branch vm below scr p cs ->
  skippable (currentVersion vm) (bool_decide (block vm <> None)) pop ->
  scr !! Z.to_nat p = Some pop ->
  numOps (counted vm) > maxOpsPerScript ->
  Step opfunc vm = Returns (true, Some ErrStackTooManyOperations) (counted vm).
Proof.
  intros Hin Hsk Hpop Hover.
  pose proof (executeOpcode_skipped opfunc pop vm below scr p cs Hin Hsk) as HE.
  replace (numOps (counted vm) >? maxOpsPerScript) with true in HE by lia.
  destruct Hin as (Hf & Hp & _).
  destruct (Step_fetch vm below scr p cs pop Hf Hp Hpop) as (HC & HP & HO).
  unfold Step. run. rewrite HC, HP, HO, HE. reflexivity.
Qed.

(** A step over a skipped opcode that is not the last of its frame: the
    counter and the program counter advance, whatever the handler is. *)
Lemma Step_skipped opfunc pop vm below scr p cs :
  in_skipped_branch vm below scr p cs ->
  skippable (currentVersion vm) (bool_decide (block vm <> None)) pop ->
  scr !! Z.to_nat p = Some pop ->
  numOps (counted vm) <= maxOpsPerScript -> p + 1 < len scr ->
  Step opfunc vm = Returns (false, None) (skipped_one vm below scr p cs).
Proof.
  intros Hin Hsk Hpop Hwithin Hmore.
  pose proof (executeOpcode_skipped opfunc pop vm below scr p cs Hin Hsk) as HE.
  replace (numOps (counted vm) >? maxOpsPerScript) with false in HE by lia.
  destruct Hin as (Hf & Hp & _ & Hd & He).
  destruct (Step_fetch vm below scr p cs pop Hf Hp Hpop) as (HC & HP & HO).
  unfold Step. run. rewrite HC, HP, HO, HE. simpl.
  replace (_ >? maxStackSize) with false by lia.
  replace (_ >? maxExecutionStackSize) with false by lia.
  rewrite Hf, length_app. simpl.
  replace (length below + 1 - 1)%nat with (length below) by lia.
  rewrite list_lookup_middle by reflexivity. simpl.
  unfold frame_done, frame_step. simpl.
  replace (p + 1 >=? len scr) with false by lia.
  unfold skipped_one. do 2 f_equal.
  rewrite Hf, insert_app_r_alt by lia. rewrite Nat.sub_diag. reflexivity.
Qed.

Lemma skipped_one_in_branch vm below scr p cs :
  in_skipped_branch vm below scr p cs ->
  in_skipped_branch (skipped_one vm below scr p cs) below scr (p + 1) cs.
Proof.
  intros (Hf & Hp & Ht & Hd & He). unfold in_skipped_branch, skipped_one. simpl.
  split; [reflexivity|]. split; [lia|]. split; [exact Ht|]. split; [exact Hd|].
  unfold ScriptStack.Depth in *. simpl. rewrite Hf in He.
  rewrite length_app in *. exact He.
Qed.

(** X17: the cost of a region is charged even when the region is skipped.
    Let the engine stand at offset [p] of its top frame inside a branch
    that is not executing, with a counter that may still grow by [k], and
    let every opcode from [p] on be legal, counted and not a conditional.
    If the frame holds more than [k] opcodes from [p] on, the step loop
    fails with TooManyOperations at step [k + 1], with the counter at
    maxOpsPerScript + 1, whatever the handlers are: none of them is run. *)
Theorem skipped_region_is_charged opfunc (k : nat) : forall vm below scr p cs,
  in_skipped_branch vm below scr p cs ->
  (forall (q : nat) pop, (Z.to_nat p <= q)%nat -> scr !! q = Some pop ->
     skippable (currentVersion vm) (bool_decide (block vm <> None)) pop) ->
  maxOpsPerScript < 2 ^ 63 - 1 ->
  0 <= numOps vm -> numOps vm + Z.of_nat k = maxOpsPerScript ->
  p + Z.of_nat k < len scr ->
  exists vm',
    stepLoop opfunc (S k) vm = Some (Returns (Some ErrStackTooManyOperations) vm') /\
    numOps vm' = maxOpsPerScript + 1.
Proof.
  induction k as [|k IH]; intros vm below scr p cs Hin Hall Hmax Hc Hk Hlen;
    (destruct (lookup_lt_is_Some_2 scr (Z.to_nat p)) as [pop Hpop];
     [destruct Hin as (_ & Hp & _); unfold len in Hlen; lia|]);
    assert (Hsk : skippable (currentVersion vm) (bool_decide (block vm <> None)) pop)
      by (eapply Hall; eauto);
    assert (Hn : numOps (counted vm) = numOps vm + 1) by (apply numOps_counted; lia).
  - exists (counted vm). simpl.
    rewrite (Step_skipped_over opfunc pop vm below scr p cs Hin Hsk Hpop) by lia.
    split; [reflexivity|]. change (numOps (counted vm) = maxOpsPerScript + 1). lia.
  - assert (HS : Step opfunc vm = Returns (false, None) (skipped_one vm below scr p cs))
      by (apply (Step_skipped opfunc pop); (assumption || lia)).
    destruct (IH (skipped_one vm below scr p cs) below scr (p + 1) cs) as (vm' & HL & Hv).
    + apply skipped_one_in_branch, Hin.
    + intros q pop' Hq Hpop'. destruct Hin as (_ & Hp & _).
      apply (Hall q pop'); [lia|exact Hpop'].
    + exact Hmax.
    + change (numOps (skipped_one vm below scr p cs)) with (numOps (counted vm)). lia.
    + change (numOps (skipped_one vm below scr p cs)) with (numOps (counted vm)). lia.
    + lia.
    + exists vm'. split; [|exact Hv].
      change (stepLoop opfunc (S (S k)) vm) with
        (match Step opfunc vm with
         | Returns (_, Some e) vm1 => Some (Returns (Some e) vm1)
         | Returns (true, None) vm1 => Some (Returns None vm1)
         | Returns (false, None) vm1 => stepLoop opfunc (S k) vm1
         | Panics p0 => Some (Panics p0)
         end).
      rewrite HS. exact HL.
Qed.

End SkippedRegion.

(** * Prepare followed by other calls *)

Section AfterPrepare.

Context `{X : Externals}.

Implicit Types (opfunc : handler) (vm : Engine) (script : bytes) (args : list bytes).

(** X18: a call of [Prepare] that fails after the index test leaves the
    counter and the cached script version of the earlier input in place,
    with an empty execution stack.  [Execute] on such an engine runs no
    opcode: if the stale version is a known one it is rejected with the
    error [curPC] reports for an empty execution stack, and if the stale
    version is unknown it returns nil, in both cases leaving the engine as
    the failed [Prepare] left it. *)
Theorem Execute_after_failed_Prepare opfunc (fuel : nat) script args (txIdx' : Z)
    vm (e : error) vm' :
  Prepare script args txIdx' vm = Returns (Some e) vm' ->
  invalidIndex txIdx' vm = false ->
  scriptVersionVal vm' = scriptVersionVal vm /\ numOps vm' = numOps vm /\
  Execute opfunc (S fuel) vm' =
    Some (Returns (if isKnownVersion (scriptVersionVal vm)
                   then Some ErrStackScriptUnfinished else None) vm').
Proof.
  rewrite Prepare_cases. intros H Hi. rewrite Hi in H.
  assert (Hvm' : vm' = loaded args txIdx' vm).
  { destruct (len script >? MaxProgramByteLength); [congruence|].
    destruct (parseScript script) as [parsed [e'|]]; congruence. }
  subst vm'. split; [reflexivity|]. split; [reflexivity|].
  unfold Execute. simpl.
  destruct (isKnownVersion (scriptVersionVal vm)); reflexivity.
Qed.

(** X19: once [Prepare] is past the index test, whether it then succeeds or
    fails, [GetStack] returns exactly the arguments it was given, in order,
    the last argument on top: nothing of the data stack of the earlier
    input is left. *)
Theorem GetStack_after_Prepare script args (txIdx' : Z) vm (err : option error) vm' :
  Prepare script args txIdx' vm = Returns err vm' ->
  invalidIndex txIdx' vm = false ->
  GetStack vm' = args.
Proof.
  rewrite Prepare_cases. intros H Hi. rewrite Hi in H. unfold GetStack.
  destruct (len script >? MaxProgramByteLength).
  { injection H as <- <-. apply getStack_stk. }
  destruct (parseScript script) as [parsed [e'|]]; injection H as <- <-; apply getStack_stk.
Qed.

End AfterPrepare.

(** * Further runs on concrete engines *)

Module MoreRuns.

Import Reference.

(** An engine left by an earlier input: a counter, a data stack and an
    alternate stack are in place. *)
Definition used : Engine :=
  set_numOps 57 (set_astack (mkStack [[Byte.x09]]) (finished [Byte.x01])).

Definition prepared_used : Engine :=
  match Prepare (X := externals) [val_byte OP_1] [[Byte.x07]] 1 used with
  | Returns _ vm => vm
  | Panics _ => used
  end.

(** The engine [prepared_again] after one step, and after [Execute]. *)
Definition stepped : Engine :=
  match Step (X := externals) ref_opfunc prepared_again with
  | Returns _ vm => vm
  | Panics _ => prepared_again
  end.

Definition executed : Engine :=
  match Execute (X := externals) ref_opfunc 5 prepared_again with
  | Some (Returns _ vm) => vm
  | _ => prepared_again
  end.

Lemma hasFlag_bit_run :
  hasFlag strict_engine ScriptVerifyStrictEncoding = true /\
  hasFlag strict_engine ScriptVerifyLowS = false.
Proof.
  split.
  - apply (hasFlag_bit strict_engine 5). discriminate.
  - apply (hasFlag_bit strict_engine 3). discriminate.
Defined.

Lemma Prepare_frame_run :
  Prepare (X := externals) [val_byte OP_1] [[Byte.x07]] 1 used = Returns None prepared_used /\
  astack prepared_used = mkStack [[Byte.x09]] /\
  stk (dstack prepared_used) = [[Byte.x07]].
Proof.
  assert (E : Prepare (X := externals) [val_byte OP_1] [[Byte.x07]] 1 used
              = Returns None prepared_used) by reflexivity.
  split; [exact E|].
  destruct (Prepare_frame (X := externals) _ _ _ _ _ _ E) as (Ha & _).
  split; [exact Ha|reflexivity].
Defined.

(** The same call on the engine as built and on one left by an earlier
    input. *)
Definition fresh_prepared : Engine :=
  match Prepare (X := externals) [val_byte OP_1] [[Byte.x07]] 1 engine2 with
  | Returns _ vm => vm
  | Panics _ => engine2
  end.

Lemma Prepare_forgets_previous_run_run :
  Prepare (X := externals) [val_byte OP_1] [[Byte.x07]] 1 engine2
    = Returns None fresh_prepared /\
  Prepare (X := externals) [val_byte OP_1] [[Byte.x07]] 1 (set_numOps 57 (finished [Byte.x01]))
    = Returns None fresh_prepared.
Proof.
  assert (E : Prepare (X := externals) [val_byte OP_1] [[Byte.x07]] 1 engine2
              = Returns None fresh_prepared) by reflexivity.
  split; [exact E|].
  apply (Prepare_forgets_previous_run (X := externals) _ _ _ engine2 _ _
           eq_refl eq_refl eq_refl eq_refl eq_refl eq_refl E).
Defined.

Lemma Prepare_ready_run :
  Prepare (X := externals) [val_byte OP_1] [[Byte.x07]] 1 reserved
    = Returns None prepared_again /\
  numOps prepared_again = 0 /\ txIdx prepared_again = 1 /\
  isBranchExecuting (X := externals) prepared_again = Returns true prepared_again /\
  currentTxInput prepared_again = Returns (mkTxInput []) prepared_again.
Proof.
  assert (E : Prepare (X := externals) [val_byte OP_1] [[Byte.x07]] 1 reserved
              = Returns None prepared_again) by reflexivity.
  split; [exact E|].
  destruct (Prepare_ready (X := externals) _ _ _ _ _ E) as (Hn & Hi & Hb & Hc).
  split; [exact Hn|]. split; [exact Hi|]. split; [exact Hb|].
  destruct (Hc tx2 eq_refl) as (input & Hin & Hcur).
  injection Hin as <-. exact Hcur.
Defined.

Lemma NewEngine_in_range_run :
  exists vm0 err vm',
    NewReusableEngine (Some tx2) 0 = (Some vm0, None) /\
    Prepare (X := externals) [val_byte OP_1] [[Byte.x01]] 0 vm0 = Returns err vm' /\
    NewEngine (X := externals) [val_byte OP_1] (Some tx2) 0 0 = Built (Some vm') err.
Proof.
  apply (NewEngine_in_range (X := externals) [val_byte OP_1] tx2 0 0 (mkTxInput [[Byte.x01]])).
  - discriminate.
  - reflexivity.
Defined.

Lemma Step_keeps_bounds_run :
  Step (X := externals) ref_opfunc prepared_again = Returns (true, None) stepped /\
  Stack.Depth (dstack stepped) + Stack.Depth (astack stepped) <= 1000 /\
  ScriptStack.Depth (estack stepped) <= 10 /\
  frames (estack stepped) = [].
Proof.
  assert (E : Step (X := externals) ref_opfunc prepared_again = Returns (true, None) stepped)
    by reflexivity.
  split; [exact E|].
  destruct (Step_keeps_bounds (X := externals) _ _ _ _ E) as (Hd & He & Hdone).
  split; [exact Hd|]. split; [exact He|]. exact (Hdone eq_refl).
Defined.

Lemma Execute_success_run :
  Execute (X := externals) ref_opfunc 5 prepared_again = Some (Returns None executed) /\
  exists vm1 below top,
    stepLoop (X := externals) ref_opfunc 5 prepared_again = Some (Returns None vm1) /\
    frames (estack vm1) = [] /\
    stk (dstack vm1) = below ++ [top] /\ ref_asBool top = true /\
    executed = set_dstack (mkStack below) vm1.
Proof.
  assert (E : Execute (X := externals) ref_opfunc 5 prepared_again
              = Some (Returns None executed)) by reflexivity.
  split; [exact E|].
  destruct (Execute_success (X := externals) _ _ _ _ E) as [[Hu _]|[_ H]].
  - discriminate Hu.
  - exact H.
Defined.

Lemma Execute_needs_Prepare_run :
  Execute (X := externals) ref_opfunc 1 engine2
    = Some (Returns (Some ErrStackScriptUnfinished) engine2) /\
  Execute (X := externals) ref_opfunc 3 executed
    = Some (Returns (Some ErrStackScriptUnfinished) executed).
Proof.
  split.
  - apply (proj1 (Execute_needs_Prepare (X := externals) ref_opfunc 0 engine2 eq_refl)).
    reflexivity.
  - apply (proj2 (Execute_needs_Prepare (X := externals) ref_opfunc 2 executed eq_refl)
             5%nat prepared_again); reflexivity.
Defined.

Lemma executeOpcode_dispatches_in_active_branch_run :
  executeOpcode (X := externals) ref_opfunc (op OP_NOP) prepared_again
    = Returns None (counted prepared_again) /\
  executeOpcode (X := externals) ref_opfunc (op OP_1) prepared_again
    = Returns None (set_dstack (mkStack [[Byte.x07]; [Byte.x01]]) prepared_again).
Proof.
  split.
  - apply (executeOpcode_dispatches_in_active_branch (X := externals) ref_opfunc
             (op OP_NOP) prepared_again (mkFrame [op OP_1] 0 [])
             eq_refl eq_refl ltac:(discriminate) eq_refl (or_introl eq_refl)).
  - apply (executeOpcode_dispatches_in_active_branch (X := externals) ref_opfunc
             (op OP_1) prepared_again (mkFrame [op OP_1] 0 [])
             eq_refl eq_refl ltac:(discriminate) eq_refl (or_introl eq_refl)).
Defined.

(** A frame stopped in the false side of an OP_IF that holds 250 OP_NOP,
    on an engine whose counter is zero. *)
Definition long_false_frame : stackFrame :=
  mkFrame (op OP_IF :: replicate 250 (op OP_NOP)) 1 [OpCondFalse].
Definition in_long_false_branch : Engine :=
  set_estack (mkScriptStack [long_false_frame]) engine2.

Lemma skipped_region_is_charged_run :
  exists vm',
    stepLoop (X := externals) ref_opfunc 202 in_long_false_branch
      = Some (Returns (Some ErrStackTooManyOperations) vm') /\
    numOps vm' = 202.
Proof.
  apply (skipped_region_is_charged (X := externals) ref_opfunc 201 in_long_false_branch
           [] (op OP_IF :: replicate 250 (op OP_NOP)) 1 [OpCondFalse]).
  - split; [reflexivity|]. split; [discriminate|].
    split; [exists OpCondFalse; repeat split; discriminate|].
    split; discriminate.
  - intros [|q] pop Hq Hpop; [exfalso; clear -Hq; lia|].
    change (replicate 250 (op OP_NOP) !! q = Some pop) in Hpop.
    apply lookup_replicate in Hpop as [-> _].
    repeat split.
  - reflexivity.
  - discriminate.
  - reflexivity.
  - reflexivity.
Defined.

(** A too long script offered to the engine [engine_v7], whose cached
    version 7 is unknown, and to the engine left by a finished run. *)
Lemma Execute_after_failed_Prepare_run :
  Prepare (X := externals) long_script [] 0 engine_v7
    = Returns (Some ErrStackLongScript) (loaded [] 0 engine_v7) /\
  Execute (X := externals) ref_opfunc 1 (loaded [] 0 engine_v7)
    = Some (Returns None (loaded [] 0 engine_v7)) /\
  Execute (X := externals) ref_opfunc 1 (loaded [] 0 executed)
    = Some (Returns (Some ErrStackScriptUnfinished) (loaded [] 0 executed)).
Proof.
  assert (E7 : Prepare (X := externals) long_script [] 0 engine_v7
               = Returns (Some ErrStackLongScript) (loaded [] 0 engine_v7))
    by (vm_compute; reflexivity).
  assert (E0 : Prepare (X := externals) long_script [] 0 executed
               = Returns (Some ErrStackLongScript) (loaded [] 0 executed))
    by (vm_compute; reflexivity).
  split; [exact E7|]. split.
  - apply (Execute_after_failed_Prepare (X := externals) ref_opfunc 0 _ _ _ _ _ _ E7).
    reflexivity.
  - apply (Execute_after_failed_Prepare (X := externals) ref_opfunc 0 _ _ _ _ _ _ E0).
    reflexivity.
Defined.

Lemma GetStack_after_Prepare_run :
  GetStack prepared_used = [[Byte.x07]] /\
  GetStack (loaded [[Byte.x07]; []] 0 used) = [[Byte.x07]; []].
Proof.
  split.
  - apply (GetStack_after_Prepare (X := externals) [val_byte OP_1] [[Byte.x07]] 1 used None);
      reflexivity.
  - apply (GetStack_after_Prepare (X := externals) long_script [[Byte.x07]; []] 0 used
             (Some ErrStackLongScript)); [vm_compute|]; reflexivity.
Defined.

End MoreRuns.
